(** * Antenna pointing controller (GS_embedded_teensy_2/Antenna.h)

    A shallow embedding of the [Antenna] class: the two-axis pointing
    routine [point_to], the composite manoeuvres [go_home] and
    [empty_water], and the constructor.

    Conventions.
    - C++ [int] is a 32-bit two's complement integer, carried as a [Z] with
      the reduction [int32] written at every arithmetic operation.
    - C++ [float] and [double] values are carried as exact rationals ([Q]);
      the rounding of IEEE arithmetic is not part of this model.  A cast
      [(int)x] truncates toward zero, [(float)n] injects an integer.
    - The stepper and encoder drivers (Stepper.h, Encoder.h,
      EncoderMultiTurn.h) are an interface: any type of hardware states
      with the five driver entry points and [delay].
    - The constants of define.h are the fields of [Config]. *)

From Stdlib Require Import ZArith QArith Qround List Lia Lqa Bool.
Import ListNotations.

Local Open Scope Z_scope.

(** ** Machine integers *)

Module Int.

Definition INT_MIN : Z := - 2 ^ 31.
Definition INT_MAX : Z := 2 ^ 31 - 1.

(** Reduction of a mathematical integer to the [int] it is stored as. *)
Definition int32 (z : Z) : Z := (z + 2 ^ 31) mod 2 ^ 32 - 2 ^ 31.

Definition in_range (z : Z) : Prop := INT_MIN <= z <= INT_MAX.

Definition add (a b : Z) : Z := int32 (a + b).
Definition sub (a b : Z) : Z := int32 (a - b).
Definition mul (a b : Z) : Z := int32 (a * b).
Definition neg (a : Z) : Z := int32 (- a).
(** [/] and [%] of C++: quotient truncated toward zero, remainder with the
  sign of the dividend. *)
Definition div (a b : Z) : Z := int32 (Z.quot a b).
Definition rem (a b : Z) : Z := Z.rem a b.
(** Arduino's [abs] macro: [((x)>0?(x):-(x))]. *)
Definition abs (a : Z) : Z := if 0 <? a then a else neg a.

End Int.

(** ** Real-valued quantities *)

Definition Qlt_bool (x y : Q) : bool := negb (Qle_bool y x).

(** Truncation toward zero: the value of a cast from [double] to [int]
    before it is stored. *)
Definition Qtrunc (q : Q) : Z :=
  if Qlt_bool q 0 then Qceiling q else Qfloor q.

(** [(int)x] *)
Definition int_of_real (q : Q) : Z := Int.int32 (Qtrunc q).

(** [(float)n] *)
Definition real_of_int (n : Z) : Q := inject_Z n.

(** ** Configuration (define.h) *)

(** The constants of define.h, which the class reads but does not define.
    [ENCODERS_MAX] is the right operand of [%] and therefore of integer
    type; encoder references, microstep counts and reductions are [int]
    constants; the two angular limits are real numbers of degrees. *)
Record Config : Type := {
  ENCODERS_MAX : Z;
  AZ_NORTH_ENCODER_VAL : Z;
  ELEV_ZENITH_ENCODER_VAL : Z;
  AZ_MICRO_STEP_PER_TURN : Z;
  AZ_REDUC : Z;
  ELEV_MICRO_STEP_PER_TURN : Z;
  ELEV_REDUC : Z;
  AZ_MAX_ROTATION_DEG : Q;
  ELEV_ZENITH_SAFETY_MARGIN_DEG : Q
}.

(** ** Drivers and the observable history *)

(** What the controller does to the outside, in program order.  Reads carry
    the value the driver returned, [SetInitTurnCount] is a write of the
    member [az_init_turn_count]. *)
Inductive Event : Type :=
| AzPosRead (v : Z)          (* az_encoder->get_encoder_pos_value() *)
| AzTurnRead (v : Z)         (* az_encoder->get_turn_count() *)
| ElevPosRead (v : Z)        (* elev_encoder->get_encoder_pos_value() *)
| AzStep (n : Z)             (* az_stepper->step(n) *)
| ElevStep (n : Z)           (* elev_stepper->step(n) *)
| Delay (ms : Z)             (* delay(ms) *)
| SetInitTurnCount (v : Z).  (* az_init_turn_count = v *)

(** An actuator-affecting event is a step command. *)
Definition is_step (e : Event) : bool :=
  match e with AzStep _ | ElevStep _ => true | _ => false end.

Definition is_init_write (e : Event) : bool :=
  match e with SetInitTurnCount _ => true | _ => false end.

(** The driver objects the class owns, over any type [W] of device
    states. *)
Class Hardware (W : Type) : Type := {
  az_get_encoder_pos_value : W -> Z * W;
  az_get_turn_count : W -> Z * W;
  elev_get_encoder_pos_value : W -> Z * W;
  az_stepper_step : Z -> W -> W;
  elev_stepper_step : Z -> W -> W;
  hw_delay : Z -> W -> W
}.

(** The object: its one data member, the devices behind its four pointers,
    and the history of what it did so far. *)
Record Antenna (W : Type) : Type := mkAntenna {
  az_init_turn_count : Z;
  devices : W;
  history : list Event
}.
Arguments mkAntenna {W} _ _ _.
Arguments az_init_turn_count {W} _.
Arguments devices {W} _.
Arguments history {W} _.

(** ** A state monad over the object *)

Definition M (W A : Type) : Type := Antenna W -> A * Antenna W.

Definition ret {W A} (a : A) : M W A := fun s => (a, s).

Definition bind {W A B} (m : M W A) (k : A -> M W B) : M W B :=
  fun s => let (a, s') := m s in k a s'.

Notation "x <- m ;; k" := (bind m (fun x => k))
  (at level 61, m at next level, right associativity).
Notation "m ;;; k" := (bind m (fun _ => k))
  (at level 61, right associativity).

Definition exec {W A} (m : M W A) (s : Antenna W) : Antenna W := snd (m s).

Definition when {W} (b : bool) (m : M W unit) : M W unit :=
  if b then m else ret tt.

Section Primitives.
Context {W : Type} `{Hardware W}.

Definition read_with (f : W -> Z * W) (ev : Z -> Event) : M W Z :=
  fun s =>
    let (v, w) := f (devices s) in
    (v, mkAntenna (az_init_turn_count s) w (history s ++ [ev v])).

Definition act_with (f : W -> W) (ev : Event) : M W unit :=
  fun s =>
    (tt, mkAntenna (az_init_turn_count s) (f (devices s)) (history s ++ [ev])).

Definition az_encoder_pos : M W Z := read_with az_get_encoder_pos_value AzPosRead.
Definition az_encoder_turn : M W Z := read_with az_get_turn_count AzTurnRead.
Definition elev_encoder_pos : M W Z := read_with elev_get_encoder_pos_value ElevPosRead.
Definition az_step (n : Z) : M W unit := act_with (az_stepper_step n) (AzStep n).
Definition elev_step (n : Z) : M W unit := act_with (elev_stepper_step n) (ElevStep n).
Definition delay (ms : Z) : M W unit := act_with (hw_delay ms) (Delay ms).

(** Read and write of the member [az_init_turn_count]. *)
Definition get_init : M W Z := fun s => (az_init_turn_count s, s).
Definition set_init (v : Z) : M W unit :=
  fun s => (tt, mkAntenna v (devices s) (history s ++ [SetInitTurnCount v])).
End Primitives.

(** ** The arithmetic of [point_to] *)

(** [while (az_deg < 0.0){ az_deg += 360.0;}], one iteration per unit of
    fuel. *)
Fixpoint az_wrap (fuel : nat) (az_deg : Q) : option Q :=
  match fuel with
  | O => None
  | S fuel' =>
      if Qlt_bool az_deg 0 then az_wrap fuel' (az_deg + 360)%Q
      else Some az_deg
  end.

(** A number of iterations after which the loop has been left
    ([az_wrap_enough] below). *)
Definition az_wrap_fuel (az_deg : Q) : nat :=
  S (Z.to_nat (Qceiling (- az_deg / 360))).

(** The value of [az_deg] after the loop. *)
Definition az_normalized (az_deg : Q) : Q :=
  match az_wrap (az_wrap_fuel az_deg) az_deg with
  | Some r => r
  | None => az_deg
  end.

Section Arithmetic.
Variable cfg : Config.

(** [(int)(az_deg / 360.0 * ENCODERS_MAX + AZ_NORTH_ENCODER_VAL) % ENCODERS_MAX],
    on the [az_deg] left by the loop. *)
Definition az_target_encoder_val (az_deg : Q) : Z :=
  Int.rem
    (int_of_real (az_deg / 360 * inject_Z (ENCODERS_MAX cfg)
                  + inject_Z (AZ_NORTH_ENCODER_VAL cfg))%Q)
    (ENCODERS_MAX cfg).

(** The "take the shortest path" block, written twice in the source (az
    and elev) with the same text. *)
Definition take_shortest_path (encoder_val_diff : Z) : Z :=
  if Int.div (ENCODERS_MAX cfg) 2 <? Int.abs encoder_val_diff then
    if encoder_val_diff <? 0 then Int.add encoder_val_diff (ENCODERS_MAX cfg)
    else Int.sub encoder_val_diff (ENCODERS_MAX cfg)
  else encoder_val_diff.

(** [az_encoder_val_diff] after the rewrap. *)
Definition az_encoder_val_diff (az_target az_current : Z) : Z :=
  take_shortest_path (Int.sub az_target az_current).

(** [((float)(az_current_turn_count - az_init_turn_count)
      + (az_current_encoder_val + az_encoder_val_diff)/ENCODERS_MAX ) * 360.0]:
    the second summand is a quotient of two [int]s. *)
Definition az_pred_diff_deg_since_init
    (az_current_turn_count init_turn_count az_current diff : Z) : Q :=
  ((real_of_int (Int.sub az_current_turn_count init_turn_count)
    + real_of_int (Int.div (Int.add az_current diff) (ENCODERS_MAX cfg))) * 360)%Q.

(** [-AZ_MICRO_STEP_PER_TURN*AZ_REDUC] and [AZ_MICRO_STEP_PER_TURN*AZ_REDUC]. *)
Definition az_full_turn_neg : Z :=
  Int.mul (Int.neg (AZ_MICRO_STEP_PER_TURN cfg)) (AZ_REDUC cfg).
Definition az_full_turn_pos : Z :=
  Int.mul (AZ_MICRO_STEP_PER_TURN cfg) (AZ_REDUC cfg).

(** [(float)az_encoder_val_diff / ENCODERS_MAX * AZ_REDUC * AZ_MICRO_STEP_PER_TURN],
    stored in an [int]. *)
Definition az_step_to_turn (diff : Z) : Z :=
  int_of_real (real_of_int diff / inject_Z (ENCODERS_MAX cfg)
               * inject_Z (AZ_REDUC cfg)
               * inject_Z (AZ_MICRO_STEP_PER_TURN cfg))%Q.

(** The two "safety check" assignments on [elev_deg]. *)
Definition elev_clamp (elev_deg : Q) : Q :=
  let elev_deg :=
    if Qlt_bool (90 - ELEV_ZENITH_SAFETY_MARGIN_DEG cfg) elev_deg
    then (90 - ELEV_ZENITH_SAFETY_MARGIN_DEG cfg)%Q else elev_deg in
  if Qlt_bool elev_deg 0 then 0%Q else elev_deg.

(** [(int)(ELEV_ZENITH_ENCODER_VAL - ENCODERS_MAX/4 + ENCODERS_MAX) % ENCODERS_MAX] *)
Definition ELEV_HORIZON_ENCODER_OFFSET_VAL : Z :=
  Int.rem
    (Int.add (Int.sub (ELEV_ZENITH_ENCODER_VAL cfg) (Int.div (ENCODERS_MAX cfg) 4)) (ENCODERS_MAX cfg))
    (ENCODERS_MAX cfg).

(** [(int)(elev_deg / 360.0 * ENCODERS_MAX + ELEV_HORIZON_ENCODER_OFFSET_VAL) % ENCODERS_MAX],
    on the clamped [elev_deg]. *)
Definition elev_target_encoder_val (elev_deg : Q) : Z :=
  Int.rem
    (int_of_real (elev_deg / 360 * inject_Z (ENCODERS_MAX cfg)
                  + inject_Z ELEV_HORIZON_ENCODER_OFFSET_VAL)%Q)
    (ENCODERS_MAX cfg).

Definition elev_encoder_val_diff (elev_target elev_current : Z) : Z :=
  take_shortest_path (Int.sub elev_target elev_current).

(** [(float)elev_encoder_val_diff / ENCODERS_MAX * ELEV_REDUC * ELEV_MICRO_STEP_PER_TURN] *)
Definition elev_step_to_turn (diff : Z) : Z :=
  int_of_real (real_of_int diff / inject_Z (ENCODERS_MAX cfg)
               * inject_Z (ELEV_REDUC cfg)
               * inject_Z (ELEV_MICRO_STEP_PER_TURN cfg))%Q.

(** [(az_current_turn_count - az_init_turn_count)*AZ_MICRO_STEP_PER_TURN*AZ_REDUC] *)
Definition unwind_steps (az_current_turn_count init_turn_count : Z) : Z :=
  Int.mul
    (Int.mul (Int.sub az_current_turn_count init_turn_count)
             (AZ_MICRO_STEP_PER_TURN cfg))
    (AZ_REDUC cfg).
End Arithmetic.

(** ** The member functions *)

Section Members.
Context {W : Type} `{Hardware W}.
Variable cfg : Config.

Definition point_to (az_deg elev_deg : Q) : M W unit :=
  (* ------ point az ------------ *)
  let az_deg := az_normalized az_deg in
  let az_target := az_target_encoder_val cfg az_deg in
  az_current <- az_encoder_pos ;;
  let az_diff := az_encoder_val_diff cfg az_target az_current in
  az_current_turn_count <- az_encoder_turn ;;
  init <- get_init ;;
  let pred :=
    az_pred_diff_deg_since_init cfg az_current_turn_count init az_current az_diff in
  when (Qlt_bool (AZ_MAX_ROTATION_DEG cfg) pred)
       (az_step (az_full_turn_neg cfg)) ;;;
  when (Qlt_bool pred (- AZ_MAX_ROTATION_DEG cfg))
       (az_step (az_full_turn_pos cfg)) ;;;
  az_step (az_step_to_turn cfg az_diff) ;;;
  (* ------ point elev -------------- *)
  let elev_deg := elev_clamp cfg elev_deg in
  let elev_target := elev_target_encoder_val cfg elev_deg in
  elev_current <- elev_encoder_pos ;;
  let elev_diff := elev_encoder_val_diff cfg elev_target elev_current in
  elev_step (Int.neg (elev_step_to_turn cfg elev_diff)).

Definition go_home : M W unit :=
  az_current_turn_count <- az_encoder_turn ;;
  init <- get_init ;;
  (* untangle the cables *)
  az_step (unwind_steps cfg az_current_turn_count init) ;;;
  point_to 0 (90 - ELEV_ZENITH_SAFETY_MARGIN_DEG cfg).

Definition empty_water : M W unit :=
  point_to 0 60 ;;;
  delay 3000 ;;;
  go_home.

(** The loop of the constructor that cleans the SPI bus. *)
Fixpoint warm_up (n : nat) : M W unit :=
  match n with
  | O => ret tt
  | S n' =>
      _ <- az_encoder_pos ;;
      delay 50 ;;;
      _ <- elev_encoder_pos ;;
      delay 50 ;;;
      warm_up n'
  end.

(** The body of the constructor, from the first encoder read on; the
    drivers are already built and the SPI bus opened in [devices]. *)
Definition Antenna_ctor : M W unit :=
  warm_up 10 ;;;
  v <- az_encoder_turn ;;
  set_init v.

(** The object the constructor leaves, built over devices [w]; [garbage]
    is the indeterminate content of the member before its assignment. *)
Definition new_Antenna (w : W) (garbage : Z) : Antenna W :=
  exec Antenna_ctor (mkAntenna garbage w []).
End Members.

(** ** A concrete rig *)

(** Devices whose encoders keep answering the same three values and whose
    motors are not powered: the simplest implementation of the drivers. *)
Record Bench : Type := mkBench {
  bench_az_pos : Z;
  bench_az_turn : Z;
  bench_elev_pos : Z
}.

#[global] Instance Bench_Hardware : Hardware Bench := {
  az_get_encoder_pos_value w := (bench_az_pos w, w);
  az_get_turn_count w := (bench_az_turn w, w);
  elev_get_encoder_pos_value w := (bench_elev_pos w, w);
  az_stepper_step _ w := w;
  elev_stepper_step _ w := w;
  hw_delay _ w := w
}.

(** A 12-bit encoder, north at 0, zenith at 1024. *)
Definition cfg4096 : Config := {|
  ENCODERS_MAX := 4096;
  AZ_NORTH_ENCODER_VAL := 0;
  ELEV_ZENITH_ENCODER_VAL := 1024;
  AZ_MICRO_STEP_PER_TURN := 6400;
  AZ_REDUC := 70;
  ELEV_MICRO_STEP_PER_TURN := 6400;
  ELEV_REDUC := 70;
  AZ_MAX_ROTATION_DEG := 380;
  ELEV_ZENITH_SAFETY_MARGIN_DEG := 5
|}.

(** A rig two turns past its start-up turn count, encoders at 0. *)
Definition bench_two_turns : Antenna Bench := mkAntenna 98 (mkBench 0 100 0) [].

(** ** Auxiliary definitions for the statements *)

(** The step counts commanded by the two tests on
    [az_pred_diff_deg_since_init], in program order. *)
Definition az_corrective (cfg : Config) (pred : Q) : list Z :=
  (if Qlt_bool (AZ_MAX_ROTATION_DEG cfg) pred
   then [az_full_turn_neg cfg] else [])
  ++ (if Qlt_bool pred (- AZ_MAX_ROTATION_DEG cfg)
      then [az_full_turn_pos cfg] else []).

(** The events a computation adds to the history of [s]. *)
Definition trace_of {W A} (m : M W A) (s : Antenna W) : list Event :=
  skipn (length (history s)) (history (exec m s)).

Section Untangle.
Context {W : Type} `{Hardware W}.
Variable cfg : Config.

(** The first two statements of [go_home] ("untangle the cables"), on
    their own. *)
Definition untangle : M W unit :=
  az_current_turn_count <- az_encoder_turn ;;
  init <- get_init ;;
  az_step (unwind_steps cfg az_current_turn_count init).
End Untangle.

(** The predicted rotation as the specification words it: the ratio of the
    predicted encoder position to ENCODERS_MAX is a real number. *)
Definition spec_predicted (cfg : Config)
    (turn_count init_turn_count current diff : Z) : Q :=
  ((inject_Z (turn_count - init_turn_count)
    + inject_Z (current + diff) / inject_Z (ENCODERS_MAX cfg)) * 360)%Q.

(** Counting what a history holds. *)
Definition is_read (e : Event) : bool :=
  match e with
  | AzPosRead _ | AzTurnRead _ | ElevPosRead _ => true
  | _ => false
  end.

Definition is_az_step (e : Event) : bool :=
  match e with AzStep _ => true | _ => false end.

Definition is_elev_step (e : Event) : bool :=
  match e with ElevStep _ => true | _ => false end.

(** The milliseconds spent in [delay] over a history. *)
Fixpoint total_delay (h : list Event) : Z :=
  match h with
  | [] => 0
  | Delay ms :: h' => ms + total_delay h'
  | _ :: h' => total_delay h'
  end.

(** How many events of a history satisfy [p]. *)
Definition count (p : Event -> bool) (h : list Event) : nat :=
  length (filter p h).

(** Two more configurations of the 12-bit rig: a negative rotation limit,
    and a zenith margin above 90 degrees. *)
Definition cfg_negative_limit : Config := {|
  ENCODERS_MAX := 4096;
  AZ_NORTH_ENCODER_VAL := 0;
  ELEV_ZENITH_ENCODER_VAL := 1024;
  AZ_MICRO_STEP_PER_TURN := 6400;
  AZ_REDUC := 70;
  ELEV_MICRO_STEP_PER_TURN := 6400;
  ELEV_REDUC := 70;
  AZ_MAX_ROTATION_DEG := -1;
  ELEV_ZENITH_SAFETY_MARGIN_DEG := 5
|}.

Definition cfg_wide_margin : Config := {|
  ENCODERS_MAX := 4096;
  AZ_NORTH_ENCODER_VAL := 0;
  ELEV_ZENITH_ENCODER_VAL := 1024;
  AZ_MICRO_STEP_PER_TURN := 6400;
  AZ_REDUC := 70;
  ELEV_MICRO_STEP_PER_TURN := 6400;
  ELEV_REDUC := 70;
  AZ_MAX_ROTATION_DEG := 380;
  ELEV_ZENITH_SAFETY_MARGIN_DEG := 100
|}.

(** A rig at its start-up turn count, encoders at 0. *)
Definition bench_at_start : Antenna Bench := mkAntenna 100 (mkBench 0 100 0) [].


(** The rig of the half-revolution move: azimuth encoder at 1024, one turn
    past start-up. *)
Definition bench_quarter : Antenna Bench := mkAntenna 99 (mkBench 1024 100 0) [].

(** * Properties *)

(** ** Machine arithmetic inside its range *)

Lemma int32_id (z : Z) : Int.in_range z -> Int.int32 z = z.
Proof.
  unfold Int.in_range, Int.INT_MIN, Int.INT_MAX, Int.int32. intros H.
  rewrite Z.mod_small; lia.
Qed.

Lemma int32_range (z : Z) : Int.in_range (Int.int32 z).
Proof.
  unfold Int.in_range, Int.INT_MIN, Int.INT_MAX, Int.int32.
  pose proof (Z.mod_pos_bound (z + 2 ^ 31) (2 ^ 32) ltac:(lia)). lia.
Qed.

Ltac int_in_range :=
  unfold Int.in_range, Int.INT_MIN, Int.INT_MAX in *; lia.

Lemma Qlt_bool_iff (x y : Q) : Qlt_bool x y = true <-> (x < y)%Q.
Proof.
  unfold Qlt_bool. rewrite negb_true_iff.
  split; intros H.
  - apply Qnot_le_lt. intros Hle. apply Qle_bool_iff in Hle. congruence.
  - destruct (Qle_bool y x) eqn:E; [|reflexivity].
    apply Qle_bool_iff in E. exfalso. apply (Qlt_not_le _ _ H E).
Qed.

Lemma Qlt_bool_false_iff (x y : Q) : Qlt_bool x y = false <-> (y <= x)%Q.
Proof.
  unfold Qlt_bool. rewrite negb_false_iff. apply Qle_bool_iff.
Qed.

Lemma quot_nonneg_div (a b : Z) : 0 <= a -> 0 < b -> Z.quot a b = a / b.
Proof. intros Ha Hb. apply Z.quot_div_nonneg; lia. Qed.

Lemma rem_nonneg_mod (a b : Z) : 0 <= a -> 0 < b -> Int.rem a b = a mod b.
Proof. intros Ha Hb. unfold Int.rem. apply Z.rem_mod_nonneg; lia. Qed.

Lemma int_abs_small (a : Z) : -2 ^ 31 < a < 2 ^ 31 -> Int.abs a = Z.abs a.
Proof.
  intros Ha. unfold Int.abs, Int.neg.
  destruct (0 <? a) eqn:E.
  - apply Z.ltb_lt in E. lia.
  - apply Z.ltb_ge in E. rewrite int32_id.
    + lia.
    + unfold Int.in_range, Int.INT_MIN, Int.INT_MAX. lia.
Qed.

Lemma half_small (e : Z) :
  0 < e <= Int.INT_MAX -> Int.div e 2 = e / 2.
Proof.
  intros He. unfold Int.div. rewrite quot_nonneg_div by lia.
  apply int32_id. unfold Int.in_range, Int.INT_MIN, Int.INT_MAX in *.
  pose proof (Z.div_pos e 2). pose proof (Z.div_le_upper_bound e 2 e).
  lia.
Qed.

(** ** The shortest-path rewrap *)

Section Rewrap.
Variable cfg : Config.
Hypothesis EMAX_int : 0 < ENCODERS_MAX cfg <= Int.INT_MAX.

Lemma take_shortest_path_cases (t c : Z) :
  0 <= t < ENCODERS_MAX cfg -> 0 <= c < ENCODERS_MAX cfg ->
  let d := take_shortest_path cfg (Int.sub t c) in
  Z.abs d <= ENCODERS_MAX cfg / 2 /\
  (d = t - c \/ d = t - c + ENCODERS_MAX cfg \/ d = t - c - ENCODERS_MAX cfg).
Proof.
  intros Ht Hc. cbv zeta. unfold take_shortest_path.
  assert (Hmax : ENCODERS_MAX cfg <= 2 ^ 31 - 1) by (unfold Int.INT_MAX in *; lia).
  assert (Hsub : Int.sub t c = t - c).
  { unfold Int.sub. apply int32_id.
    unfold Int.in_range, Int.INT_MIN, Int.INT_MAX. lia. }
  rewrite Hsub, half_small by assumption.
  rewrite int_abs_small by lia.
  pose proof (Z.div_mod (ENCODERS_MAX cfg) 2 ltac:(lia)) as Hdm.
  pose proof (Z.mod_pos_bound (ENCODERS_MAX cfg) 2 ltac:(lia)) as Hmb.
  destruct (ENCODERS_MAX cfg / 2 <? Z.abs (t - c)) eqn:Ebig.
  - apply Z.ltb_lt in Ebig.
    destruct (t - c <? 0) eqn:Eneg.
    + apply Z.ltb_lt in Eneg. unfold Int.add.
      rewrite int32_id
        by (unfold Int.in_range, Int.INT_MIN, Int.INT_MAX; lia).
      split; lia.
    + apply Z.ltb_ge in Eneg. unfold Int.sub.
      rewrite int32_id
        by (unfold Int.in_range, Int.INT_MIN, Int.INT_MAX; lia).
      split; lia.
  - apply Z.ltb_ge in Ebig. split; lia.
Qed.

Lemma take_shortest_path_reaches (t c : Z) :
  0 <= t < ENCODERS_MAX cfg -> 0 <= c < ENCODERS_MAX cfg ->
  (c + take_shortest_path cfg (Int.sub t c)) mod ENCODERS_MAX cfg = t.
Proof.
  intros Ht Hc.
  destruct (take_shortest_path_cases t c Ht Hc) as [_ [E | [E | E]]];
    rewrite E.
  - replace (c + (t - c)) with t by lia. apply Z.mod_small; lia.
  - replace (c + (t - c + ENCODERS_MAX cfg)) with (t + 1 * ENCODERS_MAX cfg) by lia.
    rewrite Z.mod_add by lia. apply Z.mod_small; lia.
  - replace (c + (t - c - ENCODERS_MAX cfg)) with (t + (-1) * ENCODERS_MAX cfg) by lia.
    rewrite Z.mod_add by lia. apply Z.mod_small; lia.
Qed.

(** C3. For every target and current encoder value in [0, ENCODERS_MAX),
    the difference left by the shortest-path rewrap, on the azimuth axis
    and on the elevation axis alike, is at most ENCODERS_MAX/2 in absolute
    value, and adding it to the current value gives the target modulo
    ENCODERS_MAX. *)
Theorem shortest_path_rewrap (target current : Z) :
  0 <= target < ENCODERS_MAX cfg ->
  0 <= current < ENCODERS_MAX cfg ->
  (Z.abs (az_encoder_val_diff cfg target current) <= ENCODERS_MAX cfg / 2 /\
   (current + az_encoder_val_diff cfg target current) mod ENCODERS_MAX cfg
     = target) /\
  (Z.abs (elev_encoder_val_diff cfg target current) <= ENCODERS_MAX cfg / 2 /\
   (current + elev_encoder_val_diff cfg target current) mod ENCODERS_MAX cfg
     = target).
Proof.
  intros Ht Hc. unfold az_encoder_val_diff, elev_encoder_val_diff.
  pose proof (take_shortest_path_cases target current Ht Hc) as [Habs _].
  pose proof (take_shortest_path_reaches target current Ht Hc) as Hmod.
  repeat split; assumption.
Qed.
End Rewrap.

(** ** The azimuth normalisation loop *)

Lemma inject_Z_succ_nat (n : nat) :
  (inject_Z (Z.of_nat (S n)) == inject_Z (Z.of_nat n) + 1)%Q.
Proof.
  rewrite Nat2Z.inj_succ, <- Z.add_1_r, inject_Z_plus. reflexivity.
Qed.

(** A non-negative [az_deg] leaves the loop at once, unchanged. *)
Lemma az_wrap_nonneg (fuel : nat) (az : Q) :
  (0 <= az)%Q -> az_wrap (S fuel) az = Some az.
Proof.
  intros H. simpl.
  destruct (Qlt_bool az 0) eqn:E; [|reflexivity].
  apply Qlt_bool_iff in E. lra.
Qed.

(** With [n] additions of 360 enough to leave the negatives, [S n] units of
    fuel end the loop, after some [k <= n] iterations. *)
Lemma az_wrap_run (n : nat) :
  forall az : Q,
    (0 <= az + 360 * inject_Z (Z.of_nat n))%Q ->
    exists (k : nat) (r : Q),
      az_wrap (S n) az = Some r /\
      (k <= n)%nat /\
      (r == az + 360 * inject_Z (Z.of_nat k))%Q /\
      (0 <= r)%Q /\
      ((az < 0)%Q -> (r < 360)%Q) /\
      ((0 <= az)%Q -> k = O /\ r = az).
Proof.
  induction n as [|n IH]; intros az Hn.
  - exists O, az. change (inject_Z (Z.of_nat 0)) with 0%Q in *.
    assert (Haz : (0 <= az)%Q) by lra.
    rewrite az_wrap_nonneg by assumption.
    repeat split; try lra; auto.
  - destruct (Qlt_bool az 0) eqn:E.
    + apply Qlt_bool_iff in E.
      rewrite inject_Z_succ_nat in Hn.
      destruct (IH (az + 360)%Q ltac:(lra)) as (k & r & Hrun & Hk & Hr & H0 & Hlt & Hge).
      exists (S k), r.
      split.
      { change (az_wrap (S (S n)) az)
          with (if Qlt_bool az 0 then az_wrap (S n) (az + 360)%Q else Some az).
        destruct (Qlt_bool az 0) eqn:E'; [assumption|].
        apply Qlt_bool_false_iff in E'. lra. }
      split; [lia|].
      split; [rewrite inject_Z_succ_nat; lra|].
      split; [assumption|].
      split.
      * intros _. destruct (Qlt_le_dec (az + 360) 0) as [Hneg | Hpos].
        -- apply Hlt. assumption.
        -- destruct (Hge Hpos) as [_ ->]. lra.
      * intros Hpos. lra.
    + apply Qlt_bool_false_iff in E.
      exists O, az. change (inject_Z (Z.of_nat 0)) with 0%Q.
      rewrite az_wrap_nonneg by assumption.
      repeat split; try lra; auto. lia.
Qed.

(** More fuel does not change the outcome of a loop that ended. *)
Lemma az_wrap_more (n : nat) :
  forall (az r : Q) (m : nat),
    az_wrap n az = Some r -> (n <= m)%nat -> az_wrap m az = Some r.
Proof.
  induction n as [|n IH]; intros az r m Hrun Hm; [discriminate|].
  destruct m as [|m]; [lia|].
  simpl in *. destruct (Qlt_bool az 0).
  - apply IH; [assumption|lia].
  - assumption.
Qed.

(** The fuel [az_wrap_fuel] is enough. *)
Lemma az_wrap_fuel_covers (az : Q) :
  (0 <= az + 360 * inject_Z (Z.of_nat (Z.to_nat (Qceiling (- az / 360)))))%Q.
Proof.
  pose proof (Qle_ceiling (- az / 360)) as Hc.
  assert (Hz : (inject_Z (Qceiling (- az / 360))
                <= inject_Z (Z.of_nat (Z.to_nat (Qceiling (- az / 360)))))%Q).
  { rewrite <- Zle_Qle. lia. }
  assert (Hd : (- az / 360 == - az * (1 # 360))%Q) by reflexivity.
  rewrite Hd in Hc at 1. lra.
Qed.

Lemma az_wrap_enough (az : Q) :
  az_wrap (az_wrap_fuel az) az = Some (az_normalized az).
Proof.
  unfold az_normalized, az_wrap_fuel.
  destruct (az_wrap_run _ az (az_wrap_fuel_covers az)) as (k & r & Hrun & _).
  rewrite Hrun. reflexivity.
Qed.


(** ** The elevation clamp *)

Section Clamp.
Variable cfg : Config.

Lemma elev_clamp_nonneg (e : Q) : (0 <= elev_clamp cfg e)%Q.
Proof.
  unfold elev_clamp.
  destruct (Qlt_bool (90 - ELEV_ZENITH_SAFETY_MARGIN_DEG cfg) e);
    match goal with |- context [Qlt_bool ?x 0] =>
      destruct (Qlt_bool x 0) eqn:E2 end;
    try apply Qlt_bool_false_iff in E2; lra.
Qed.

Lemma elev_clamp_upper (e : Q) :
  (0 <= 90 - ELEV_ZENITH_SAFETY_MARGIN_DEG cfg)%Q ->
  (elev_clamp cfg e <= 90 - ELEV_ZENITH_SAFETY_MARGIN_DEG cfg)%Q.
Proof.
  intros Hm. unfold elev_clamp.
  destruct (Qlt_bool (90 - ELEV_ZENITH_SAFETY_MARGIN_DEG cfg) e) eqn:E1;
    match goal with |- context [Qlt_bool ?x 0] =>
      destruct (Qlt_bool x 0) eqn:E2 end;
    try apply Qlt_bool_false_iff in E1; lra.
Qed.

Lemma elev_clamp_above (e : Q) :
  (0 <= 90 - ELEV_ZENITH_SAFETY_MARGIN_DEG cfg)%Q ->
  (90 - ELEV_ZENITH_SAFETY_MARGIN_DEG cfg < e)%Q ->
  elev_clamp cfg e = (90 - ELEV_ZENITH_SAFETY_MARGIN_DEG cfg)%Q.
Proof.
  intros Hm He. unfold elev_clamp.
  apply Qlt_bool_iff in He. rewrite He.
  destruct (Qlt_bool (90 - ELEV_ZENITH_SAFETY_MARGIN_DEG cfg) 0) eqn:E;
    [|reflexivity].
  apply Qlt_bool_iff in E. lra.
Qed.

Lemma elev_clamp_below (e : Q) :
  (0 <= 90 - ELEV_ZENITH_SAFETY_MARGIN_DEG cfg)%Q ->
  (e < 0)%Q -> elev_clamp cfg e = 0%Q.
Proof.
  intros Hm He. unfold elev_clamp.
  destruct (Qlt_bool (90 - ELEV_ZENITH_SAFETY_MARGIN_DEG cfg) e) eqn:E1.
  - apply Qlt_bool_iff in E1. lra.
  - apply Qlt_bool_iff in He. rewrite He. reflexivity.
Qed.

Lemma elev_clamp_inside (e : Q) :
  (0 <= e)%Q -> (e <= 90 - ELEV_ZENITH_SAFETY_MARGIN_DEG cfg)%Q ->
  elev_clamp cfg e = e.
Proof.
  intros H0 H1. unfold elev_clamp.
  apply Qlt_bool_false_iff in H0, H1. rewrite H1, H0. reflexivity.
Qed.

Lemma elev_clamp_idem (e : Q) :
  (0 <= 90 - ELEV_ZENITH_SAFETY_MARGIN_DEG cfg)%Q ->
  elev_clamp cfg (elev_clamp cfg e) = elev_clamp cfg e.
Proof.
  intros Hm. apply elev_clamp_inside.
  - apply elev_clamp_nonneg.
  - apply elev_clamp_upper. assumption.
Qed.
End Clamp.

(** ** Running the member functions *)

Ltac unfold_members :=
  unfold exec, empty_water, go_home, point_to, bind, when, ret,
    az_encoder_pos, az_encoder_turn, elev_encoder_pos,
    az_step, elev_step, delay, read_with, act_with, get_init, set_init.

Ltac tidy_history :=
  cbn [az_init_turn_count devices history fst snd];
  repeat rewrite <- app_assoc;
  cbn [app].

Section Runs.
Context {W : Type} `{Hardware W}.
Variable cfg : Config.

(** What [point_to] adds to the history: two azimuth reads, the
    corrective turns of the two tests, the azimuth move, one elevation
    read and the elevation move.  The member [az_init_turn_count] is left
    as it was. *)
Lemma point_to_history (az_deg elev_deg : Q) (s : Antenna W) :
  exists (az_current tc elev_current : Z),
    az_current = fst (az_get_encoder_pos_value (devices s)) /\
    tc = fst (az_get_turn_count (snd (az_get_encoder_pos_value (devices s)))) /\
    let az_diff :=
      az_encoder_val_diff cfg
        (az_target_encoder_val cfg (az_normalized az_deg)) az_current in
    let pred :=
      az_pred_diff_deg_since_init cfg tc (az_init_turn_count s) az_current az_diff in
    let elev_diff :=
      elev_encoder_val_diff cfg
        (elev_target_encoder_val cfg (elev_clamp cfg elev_deg)) elev_current in
    history (exec (point_to cfg az_deg elev_deg) s)
    = history s
      ++ [AzPosRead az_current; AzTurnRead tc]
      ++ map AzStep (az_corrective cfg pred)
      ++ [AzStep (az_step_to_turn cfg az_diff);
          ElevPosRead elev_current;
          ElevStep (Int.neg (elev_step_to_turn cfg elev_diff))]
    /\ az_init_turn_count (exec (point_to cfg az_deg elev_deg) s)
       = az_init_turn_count s.
Proof.
  unfold_members. unfold az_corrective.
  destruct (az_get_encoder_pos_value (devices s)) as [cur w1] eqn:E1.
  cbn [az_init_turn_count devices history fst snd].
  destruct (az_get_turn_count w1) as [tc w2] eqn:E2.
  cbn [az_init_turn_count devices history fst snd].
  exists cur, tc.
  set (az_diff := az_encoder_val_diff cfg _ cur).
  set (pred := az_pred_diff_deg_since_init cfg tc _ cur az_diff).
  destruct (Qlt_bool (AZ_MAX_ROTATION_DEG cfg) pred);
    destruct (Qlt_bool pred (- AZ_MAX_ROTATION_DEG cfg));
    cbn [az_init_turn_count devices history fst snd];
    match goal with
    | |- context [elev_get_encoder_pos_value ?w] =>
        destruct (elev_get_encoder_pos_value w) as [ecur w'] eqn:E3
    end;
    exists ecur; tidy_history; repeat split; reflexivity.
Qed.
End Runs.

(** ** Cable-wrap protection *)

Section CableWrap.
Variable cfg : Config.

Lemma az_full_turn_values :
  0 < AZ_MICRO_STEP_PER_TURN cfg -> 0 < AZ_REDUC cfg ->
  AZ_MICRO_STEP_PER_TURN cfg * AZ_REDUC cfg <= Int.INT_MAX ->
  az_full_turn_neg cfg = - (AZ_MICRO_STEP_PER_TURN cfg * AZ_REDUC cfg) /\
  az_full_turn_pos cfg = AZ_MICRO_STEP_PER_TURN cfg * AZ_REDUC cfg.
Proof.
  intros Hm Hr Hmax. unfold az_full_turn_neg, az_full_turn_pos, Int.mul, Int.neg.
  assert (AZ_MICRO_STEP_PER_TURN cfg <= AZ_MICRO_STEP_PER_TURN cfg * AZ_REDUC cfg)
    by nia.
  rewrite (int32_id (- AZ_MICRO_STEP_PER_TURN cfg)) by int_in_range.
  rewrite !int32_id by int_in_range.
  split; lia.
Qed.

Lemma az_corrective_cases (pred : Q) :
  (0 <= AZ_MAX_ROTATION_DEG cfg)%Q ->
  ((AZ_MAX_ROTATION_DEG cfg < pred)%Q ->
     az_corrective cfg pred = [az_full_turn_neg cfg]) /\
  ((pred < - AZ_MAX_ROTATION_DEG cfg)%Q ->
     az_corrective cfg pred = [az_full_turn_pos cfg]) /\
  ((- AZ_MAX_ROTATION_DEG cfg <= pred)%Q ->
   (pred <= AZ_MAX_ROTATION_DEG cfg)%Q ->
     az_corrective cfg pred = []).
Proof.
  intros Hmax. unfold az_corrective.
  destruct (Qlt_bool (AZ_MAX_ROTATION_DEG cfg) pred) eqn:E1;
    destruct (Qlt_bool pred (- AZ_MAX_ROTATION_DEG cfg)) eqn:E2;
    try apply Qlt_bool_iff in E1; try apply Qlt_bool_iff in E2;
    try apply Qlt_bool_false_iff in E1; try apply Qlt_bool_false_iff in E2;
    repeat split; intros; try reflexivity; exfalso; lra.
Qed.

Context {W : Type} `{Hardware W}.

(** Relative to the prediction the code computes.  With a non-negative
    AZ_MAX_ROTATION_DEG and a full turn
    AZ_MICRO_STEP_PER_TURN * AZ_REDUC that fits an [int]: [point_to] reads
    the azimuth position and the turn count once each, then commands the
    corrective turns, then the main azimuth step, then the elevation.
    When the predicted rotation the code computes is above
    AZ_MAX_ROTATION_DEG the corrective part is exactly one step of
    minus one full turn; when it is below -AZ_MAX_ROTATION_DEG it is
    exactly one step of plus one full turn; otherwise it is empty.  No
    sensor is read between the corrective turn and the main step. *)
Theorem cable_wrap_correction (az_deg elev_deg : Q) (s : Antenna W) :
  (0 <= AZ_MAX_ROTATION_DEG cfg)%Q ->
  0 < AZ_MICRO_STEP_PER_TURN cfg -> 0 < AZ_REDUC cfg ->
  AZ_MICRO_STEP_PER_TURN cfg * AZ_REDUC cfg <= Int.INT_MAX ->
  exists (az_current tc elev_current elev_steps : Z) (corrective : list Event),
    let az_diff :=
      az_encoder_val_diff cfg
        (az_target_encoder_val cfg (az_normalized az_deg)) az_current in
    let pred :=
      az_pred_diff_deg_since_init cfg tc (az_init_turn_count s)
        az_current az_diff in
    history (exec (point_to cfg az_deg elev_deg) s)
    = history s
      ++ [AzPosRead az_current; AzTurnRead tc]
      ++ corrective
      ++ [AzStep (az_step_to_turn cfg az_diff);
          ElevPosRead elev_current; ElevStep elev_steps] /\
    ((AZ_MAX_ROTATION_DEG cfg < pred)%Q ->
       corrective =
         [AzStep (- (AZ_MICRO_STEP_PER_TURN cfg * AZ_REDUC cfg))]) /\
    ((pred < - AZ_MAX_ROTATION_DEG cfg)%Q ->
       corrective =
         [AzStep (AZ_MICRO_STEP_PER_TURN cfg * AZ_REDUC cfg)]) /\
    ((- AZ_MAX_ROTATION_DEG cfg <= pred)%Q ->
     (pred <= AZ_MAX_ROTATION_DEG cfg)%Q ->
       corrective = []).
Proof.
  intros Hmax Hm Hr Hfit.
  destruct (point_to_history cfg az_deg elev_deg s)
    as (cur & tc & ecur & _ & _ & Hhist & _).
  cbv zeta in Hhist.
  destruct (az_full_turn_values Hm Hr Hfit) as [Eneg Epos].
  set (az_diff := az_encoder_val_diff cfg
                    (az_target_encoder_val cfg (az_normalized az_deg)) cur) in *.
  set (pred := az_pred_diff_deg_since_init cfg tc (az_init_turn_count s)
                 cur az_diff) in *.
  destruct (az_corrective_cases pred Hmax) as (Hhi & Hlo & Hmid).
  exists cur, tc, ecur,
    (Int.neg (elev_step_to_turn cfg
       (elev_encoder_val_diff cfg
          (elev_target_encoder_val cfg (elev_clamp cfg elev_deg)) ecur))),
    (map AzStep (az_corrective cfg pred)).
  cbv zeta. fold az_diff. fold pred.
  split; [exact Hhist|].
  split; [intros Hp; rewrite (Hhi Hp), Eneg; reflexivity|].
  split; [intros Hp; rewrite (Hlo Hp), Epos; reflexivity|].
  intros Hp1 Hp2. rewrite (Hmid Hp1 Hp2). reflexivity.
Qed.
End CableWrap.

(** ** Elevation clamp inside [point_to] *)

Section ClampInPointTo.
Variable cfg : Config.
Context {W : Type} `{Hardware W}.

(** C6. With a margin of at most 90 degrees: a requested elevation above
    90 - margin is replaced by 90 - margin, one below 0 by 0, one inside
    the interval is kept; the clamped value lies in [0, 90 - margin], and
    [point_to] behaves on the request as it does on the clamped value. *)
Theorem elevation_clamped (elev_deg : Q) :
  (0 <= 90 - ELEV_ZENITH_SAFETY_MARGIN_DEG cfg)%Q ->
  ((90 - ELEV_ZENITH_SAFETY_MARGIN_DEG cfg < elev_deg)%Q ->
     elev_clamp cfg elev_deg = (90 - ELEV_ZENITH_SAFETY_MARGIN_DEG cfg)%Q) /\
  ((elev_deg < 0)%Q -> elev_clamp cfg elev_deg = 0%Q) /\
  ((0 <= elev_deg)%Q ->
   (elev_deg <= 90 - ELEV_ZENITH_SAFETY_MARGIN_DEG cfg)%Q ->
     elev_clamp cfg elev_deg = elev_deg) /\
  (0 <= elev_clamp cfg elev_deg)%Q /\
  (elev_clamp cfg elev_deg <= 90 - ELEV_ZENITH_SAFETY_MARGIN_DEG cfg)%Q /\
  (forall (az_deg : Q) (s : Antenna W),
      point_to cfg az_deg elev_deg s
      = point_to cfg az_deg (elev_clamp cfg elev_deg) s).
Proof.
  intros Hm.
  split; [apply elev_clamp_above; assumption|].
  split; [apply elev_clamp_below; assumption|].
  split; [apply elev_clamp_inside|].
  split; [apply elev_clamp_nonneg|].
  split; [apply elev_clamp_upper; assumption|].
  intros az_deg s. unfold point_to.
  rewrite elev_clamp_idem by assumption. reflexivity.
Qed.
End ClampInPointTo.

(** ** Traces of the member functions *)

Lemma skipn_length_app {A} (l t : list A) : skipn (length l) (l ++ t) = t.
Proof. induction l as [|a l IH]; [reflexivity|exact IH]. Qed.

Lemma trace_of_intro {W A} (m : M W A) (s : Antenna W) (t : list Event) :
  history (exec m s) = history s ++ t -> trace_of m s = t.
Proof. intros E. unfold trace_of. rewrite E. apply skipn_length_app. Qed.

Section Traces.
Context {W : Type} `{Hardware W}.
Variable cfg : Config.

Lemma point_to_trace (az_deg elev_deg : Q) (s : Antenna W) :
  history (exec (point_to cfg az_deg elev_deg) s)
  = history s ++ trace_of (point_to cfg az_deg elev_deg) s /\
  filter is_init_write (trace_of (point_to cfg az_deg elev_deg) s) = [] /\
  az_init_turn_count (exec (point_to cfg az_deg elev_deg) s)
  = az_init_turn_count s.
Proof.
  destruct (point_to_history cfg az_deg elev_deg s)
    as (cur & tc & ecur & _ & _ & Hhist & Hinit).
  cbv zeta in Hhist.
  rewrite (trace_of_intro _ _ _ Hhist).
  split; [exact Hhist|]. split; [|exact Hinit].
  cbn [app filter is_init_write].
  rewrite filter_app.
  match goal with |- filter _ (map AzStep ?l) ++ _ = _ =>
    generalize l end.
  intros l. induction l as [|x l IH]; [reflexivity|exact IH].
Qed.

(** The state after the unwind command of [go_home]. *)
Lemma untangle_run (s : Antenna W) :
  exec (untangle cfg) s
  = mkAntenna (az_init_turn_count s)
      (az_stepper_step
         (unwind_steps cfg (fst (az_get_turn_count (devices s)))
            (az_init_turn_count s))
         (snd (az_get_turn_count (devices s))))
      (history s
       ++ [AzTurnRead (fst (az_get_turn_count (devices s)));
           AzStep (unwind_steps cfg (fst (az_get_turn_count (devices s)))
                     (az_init_turn_count s))]).
Proof.
  unfold untangle. unfold_members.
  destruct (az_get_turn_count (devices s)) as [tc w1].
  tidy_history. reflexivity.
Qed.

Lemma go_home_split (s : Antenna W) :
  go_home cfg s
  = point_to cfg 0 (90 - ELEV_ZENITH_SAFETY_MARGIN_DEG cfg)
      (exec (untangle cfg) s).
Proof.
  unfold go_home, untangle, exec, bind, az_encoder_turn, read_with,
    get_init, az_step, act_with.
  destruct (az_get_turn_count (devices s)) as [tc w1].
  reflexivity.
Qed.

Lemma empty_water_split (s : Antenna W) :
  empty_water cfg s
  = go_home cfg (exec (delay 3000) (exec (point_to cfg 0 60) s)).
Proof.
  unfold empty_water, exec, bind.
  destruct (point_to cfg 0 60 s) as [[] s1].
  unfold delay, act_with. reflexivity.
Qed.

Lemma unwind_steps_exact (tc init : Z) :
  Int.in_range (tc - init) ->
  Int.in_range ((tc - init) * AZ_MICRO_STEP_PER_TURN cfg) ->
  Int.in_range ((tc - init) * AZ_MICRO_STEP_PER_TURN cfg * AZ_REDUC cfg) ->
  unwind_steps cfg tc init
  = (tc - init) * AZ_MICRO_STEP_PER_TURN cfg * AZ_REDUC cfg.
Proof.
  intros H1 H2 H3. unfold unwind_steps, Int.mul, Int.sub.
  rewrite (int32_id (tc - init)) by assumption.
  rewrite (int32_id ((tc - init) * _)) by assumption.
  apply int32_id. assumption.
Qed.

Lemma go_home_trace (s : Antenna W) :
  history (exec (go_home cfg) s)
  = history s ++ trace_of (go_home cfg) s /\
  trace_of (go_home cfg) s
  = [AzTurnRead (fst (az_get_turn_count (devices s)));
     AzStep (unwind_steps cfg (fst (az_get_turn_count (devices s)))
               (az_init_turn_count s))]
    ++ trace_of (point_to cfg 0 (90 - ELEV_ZENITH_SAFETY_MARGIN_DEG cfg))
         (exec (untangle cfg) s) /\
  az_init_turn_count (exec (go_home cfg) s) = az_init_turn_count s.
Proof.
  assert (E : exec (go_home cfg) s
              = exec (point_to cfg 0 (90 - ELEV_ZENITH_SAFETY_MARGIN_DEG cfg))
                  (exec (untangle cfg) s)).
  { unfold exec at 1. rewrite go_home_split. reflexivity. }
  destruct (point_to_trace 0 (90 - ELEV_ZENITH_SAFETY_MARGIN_DEG cfg)
              (exec (untangle cfg) s)) as (Hh & _ & Hi).
  assert (Hall : history (exec (go_home cfg) s)
                 = history s
                   ++ [AzTurnRead (fst (az_get_turn_count (devices s)));
                       AzStep (unwind_steps cfg
                                 (fst (az_get_turn_count (devices s)))
                                 (az_init_turn_count s))]
                   ++ trace_of (point_to cfg 0
                                  (90 - ELEV_ZENITH_SAFETY_MARGIN_DEG cfg))
                        (exec (untangle cfg) s)).
  { rewrite E, Hh. rewrite untangle_run at 1. cbn [history].
    rewrite <- app_assoc. reflexivity. }
  rewrite (trace_of_intro _ _ _ Hall).
  split; [exact Hall|]. split; [reflexivity|].
  rewrite E, Hi. rewrite untangle_run. reflexivity.
Qed.

(** C5. When the turn difference and its products with
    AZ_MICRO_STEP_PER_TURN and AZ_REDUC fit an [int]: [go_home] reads
    the turn count, commands the azimuth stepper by
    (turn count - az_init_turn_count) * AZ_MICRO_STEP_PER_TURN * AZ_REDUC
    before any position is read and without the shortest-path rewrap,
    and then runs [point_to(0, 90 - ELEV_ZENITH_SAFETY_MARGIN_DEG)].  Any
    other state of the object and its devices with the same turn count and
    the same [az_init_turn_count] gets the same unwind command, whatever
    its encoders' positions. *)
Theorem go_home_unwinds_then_parks (s : Antenna W) (tc : Z) :
  tc = fst (az_get_turn_count (devices s)) ->
  Int.in_range (tc - az_init_turn_count s) ->
  Int.in_range ((tc - az_init_turn_count s) * AZ_MICRO_STEP_PER_TURN cfg) ->
  Int.in_range ((tc - az_init_turn_count s) * AZ_MICRO_STEP_PER_TURN cfg
                * AZ_REDUC cfg) ->
  exists s1 : Antenna W,
    s1 = mkAntenna (az_init_turn_count s)
           (az_stepper_step
              ((tc - az_init_turn_count s) * AZ_MICRO_STEP_PER_TURN cfg
               * AZ_REDUC cfg)
              (snd (az_get_turn_count (devices s))))
           (history s
            ++ [AzTurnRead tc;
                AzStep ((tc - az_init_turn_count s)
                        * AZ_MICRO_STEP_PER_TURN cfg * AZ_REDUC cfg)]) /\
    go_home cfg s
    = point_to cfg 0 (90 - ELEV_ZENITH_SAFETY_MARGIN_DEG cfg) s1 /\
    history (exec (go_home cfg) s)
    = history s
      ++ [AzTurnRead tc;
          AzStep ((tc - az_init_turn_count s)
                  * AZ_MICRO_STEP_PER_TURN cfg * AZ_REDUC cfg)]
      ++ trace_of (point_to cfg 0 (90 - ELEV_ZENITH_SAFETY_MARGIN_DEG cfg)) s1 /\
    (forall s' : Antenna W,
        fst (az_get_turn_count (devices s')) = tc ->
        az_init_turn_count s' = az_init_turn_count s ->
        exists rest : list Event,
          trace_of (go_home cfg) s'
          = AzTurnRead tc
            :: AzStep ((tc - az_init_turn_count s)
                       * AZ_MICRO_STEP_PER_TURN cfg * AZ_REDUC cfg)
            :: rest).
Proof.
  intros Etc H1 H2 H3.
  pose proof (untangle_run s) as Hrun.
  rewrite <- Etc in Hrun.
  pose proof (unwind_steps_exact _ _ H1 H2 H3) as Hexact.
  rewrite Hexact in Hrun.
  destruct (go_home_trace s) as (Hh & Ht & _).
  rewrite <- Etc, Hexact in Ht.
  eexists. split; [reflexivity|].
  rewrite <- Hrun.
  split; [apply go_home_split|].
  split; [rewrite Hh, Ht; reflexivity|].
  intros s' Etc' Einit'.
  destruct (go_home_trace s') as (_ & Ht' & _).
  rewrite Etc', Einit', Hexact in Ht'.
  eexists. exact Ht'.
Qed.
End Traces.

(** ** The elevation target *)

Lemma Qtrunc_nonneg (q : Q) : (0 <= q)%Q -> Qtrunc q = Qfloor q.
Proof.
  intros H. unfold Qtrunc. apply Qlt_bool_false_iff in H. rewrite H. reflexivity.
Qed.

Lemma Qfloor_bounds (q : Q) (hi : Z) :
  (0 <= q)%Q -> (q <= inject_Z hi)%Q -> 0 <= Qfloor q <= hi.
Proof.
  intros H0 Hhi. split.
  - change 0 with (Qfloor 0). apply Qfloor_resp_le. assumption.
  - rewrite Zle_Qle. apply Qle_trans with q; [apply Qfloor_le|assumption].
Qed.

Section ElevationTarget.
Variable cfg : Config.
Hypothesis EMAX_small : 0 < ENCODERS_MAX cfg <= 2 ^ 29.
Hypothesis ZENITH_range :
  0 <= ELEV_ZENITH_ENCODER_VAL cfg < ENCODERS_MAX cfg.
Hypothesis MARGIN_range :
  (0 <= ELEV_ZENITH_SAFETY_MARGIN_DEG cfg)%Q /\
  (ELEV_ZENITH_SAFETY_MARGIN_DEG cfg <= 90)%Q.

Lemma horizon_offset_mod :
  ELEV_HORIZON_ENCODER_OFFSET_VAL cfg
  = (ELEV_ZENITH_ENCODER_VAL cfg - ENCODERS_MAX cfg / 4 + ENCODERS_MAX cfg)
    mod ENCODERS_MAX cfg.
Proof.
  unfold ELEV_HORIZON_ENCODER_OFFSET_VAL, Int.add, Int.sub, Int.div.
  rewrite quot_nonneg_div by lia.
  pose proof (Z.div_pos (ENCODERS_MAX cfg) 4 ltac:(lia) ltac:(lia)) as Hq0.
  pose proof (Z.div_le_upper_bound (ENCODERS_MAX cfg) 4 (ENCODERS_MAX cfg)
                ltac:(lia) ltac:(lia)) as Hq1.
  rewrite (int32_id (ENCODERS_MAX cfg / 4)) by int_in_range.
  rewrite (int32_id (_ - _)) by int_in_range.
  rewrite int32_id by int_in_range.
  apply rem_nonneg_mod; lia.
Qed.

Lemma horizon_offset_range :
  0 <= ELEV_HORIZON_ENCODER_OFFSET_VAL cfg < ENCODERS_MAX cfg.
Proof. rewrite horizon_offset_mod. apply Z.mod_pos_bound. lia. Qed.

Lemma elev_target_mod (elev_deg : Q) :
  elev_target_encoder_val cfg (elev_clamp cfg elev_deg)
  = Qfloor (elev_clamp cfg elev_deg / 360 * inject_Z (ENCODERS_MAX cfg)
            + inject_Z (ELEV_HORIZON_ENCODER_OFFSET_VAL cfg))
    mod ENCODERS_MAX cfg.
Proof.
  pose proof horizon_offset_range as Hh.
  pose proof (elev_clamp_nonneg cfg elev_deg) as Hc0.
  assert (Hc1 : (elev_clamp cfg elev_deg <= 90)%Q).
  { apply Qle_trans with (90 - ELEV_ZENITH_SAFETY_MARGIN_DEG cfg)%Q.
    - apply elev_clamp_upper. lra.
    - lra. }
  set (c := elev_clamp cfg elev_deg) in *.
  assert (He0 : (0 <= inject_Z (ENCODERS_MAX cfg))%Q)
    by (change 0%Q with (inject_Z 0); rewrite <- Zle_Qle; lia).
  assert (Hh0 : (0 <= inject_Z (ELEV_HORIZON_ENCODER_OFFSET_VAL cfg))%Q)
    by (change 0%Q with (inject_Z 0); rewrite <- Zle_Qle; lia).
  assert (Hh1 : (inject_Z (ELEV_HORIZON_ENCODER_OFFSET_VAL cfg)
                 <= inject_Z (ENCODERS_MAX cfg))%Q)
    by (rewrite <- Zle_Qle; lia).
  assert (Hr0 : (0 <= c / 360)%Q) by (apply Qle_shift_div_l; lra).
  assert (Hr1 : (c / 360 <= 1)%Q) by (apply Qle_shift_div_r; lra).
  assert (Hp0 : (0 <= c / 360 * inject_Z (ENCODERS_MAX cfg))%Q)
    by (apply Qmult_le_0_compat; assumption).
  assert (Hp1 : (c / 360 * inject_Z (ENCODERS_MAX cfg)
                 <= 1 * inject_Z (ENCODERS_MAX cfg))%Q)
    by (apply Qmult_le_compat_r; assumption).
  set (x := (c / 360 * inject_Z (ENCODERS_MAX cfg)
             + inject_Z (ELEV_HORIZON_ENCODER_OFFSET_VAL cfg))%Q).
  assert (Hx0 : (0 <= x)%Q) by (unfold x; lra).
  assert (Hx1 : (x <= inject_Z (2 * ENCODERS_MAX cfg))%Q).
  { rewrite inject_Z_mult. change (inject_Z 2) with 2%Q. unfold x. lra. }
  destruct (Qfloor_bounds x (2 * ENCODERS_MAX cfg) Hx0 Hx1) as [Hf0 Hf1].
  unfold elev_target_encoder_val, int_of_real. fold c. fold x.
  rewrite Qtrunc_nonneg by assumption.
  rewrite int32_id by int_in_range.
  apply rem_nonneg_mod; lia.
Qed.

Lemma int_neg_exact (n : Z) :
  Int.in_range n -> Int.INT_MIN < n -> Int.neg n = - n.
Proof. intros Hn Hmin. unfold Int.neg. apply int32_id. int_in_range. Qed.

Context {W : Type} `{Hardware W}.

End ElevationTarget.

(** ** The composite manoeuvres and the constructor *)

Section Composite.
Context {W : Type} `{Hardware W}.
Variable cfg : Config.

Lemma delay_run (ms : Z) (s : Antenna W) :
  exec (delay ms) s
  = mkAntenna (az_init_turn_count s) (hw_delay ms (devices s))
      (history s ++ [Delay ms]).
Proof. reflexivity. Qed.

(** C8. [empty_water] is [point_to(0, 60)], then [delay(3000)], then the
    two parts of [go_home]: the unwind command (preceded by its turn-count
    read) and [point_to(0, 90 - ELEV_ZENITH_SAFETY_MARGIN_DEG)].  What it
    adds to the history is the trace of the first [point_to], the delay,
    the turn-count read, the unwind step and the trace of the second
    [point_to], with nothing else in between; its step commands are those
    of the first [point_to], then the unwind step, then those of the second
    [point_to]. *)
Theorem empty_water_sequence (s : Antenna W) :
  exists (s1 s2 s3 s4 : Antenna W) (tc : Z),
    s1 = exec (point_to cfg 0 60) s /\
    s2 = exec (delay 3000) s1 /\
    s3 = exec (untangle cfg) s2 /\
    s4 = exec (point_to cfg 0 (90 - ELEV_ZENITH_SAFETY_MARGIN_DEG cfg)) s3 /\
    exec (go_home cfg) s2 = s4 /\
    exec (empty_water cfg) s = s4 /\
    tc = fst (az_get_turn_count (devices s2)) /\
    history s2 = history s1 ++ [Delay 3000] /\
    history s3
    = history s2
      ++ [AzTurnRead tc; AzStep (unwind_steps cfg tc (az_init_turn_count s))] /\
    history (exec (empty_water cfg) s)
    = history s
      ++ trace_of (point_to cfg 0 60) s
      ++ [Delay 3000;
          AzTurnRead tc;
          AzStep (unwind_steps cfg tc (az_init_turn_count s))]
      ++ trace_of (point_to cfg 0 (90 - ELEV_ZENITH_SAFETY_MARGIN_DEG cfg)) s3 /\
    filter is_step (trace_of (empty_water cfg) s)
    = filter is_step (trace_of (point_to cfg 0 60) s)
      ++ [AzStep (unwind_steps cfg tc (az_init_turn_count s))]
      ++ filter is_step
           (trace_of (point_to cfg 0 (90 - ELEV_ZENITH_SAFETY_MARGIN_DEG cfg)) s3).
Proof.
  destruct (point_to_trace cfg 0 60 s) as (Hh1 & _ & Hi1).
  set (s1 := exec (point_to cfg 0 60) s) in *.
  set (s2 := exec (delay 3000) s1).
  assert (Hi2 : az_init_turn_count s2 = az_init_turn_count s)
    by (unfold s2; rewrite delay_run; exact Hi1).
  assert (Hh2 : history s2 = history s1 ++ [Delay 3000])
    by (unfold s2; rewrite delay_run; reflexivity).
  set (s3 := exec (untangle cfg) s2).
  assert (Hh3 : history s3
                = history s2
                  ++ [AzTurnRead (fst (az_get_turn_count (devices s2)));
                      AzStep (unwind_steps cfg
                                (fst (az_get_turn_count (devices s2)))
                                (az_init_turn_count s))]).
  { unfold s3. rewrite untangle_run. cbn [history]. rewrite Hi2. reflexivity. }
  destruct (point_to_trace cfg 0 (90 - ELEV_ZENITH_SAFETY_MARGIN_DEG cfg) s3)
    as (Hh4 & _ & _).
  assert (Eg : exec (go_home cfg) s2
               = exec (point_to cfg 0 (90 - ELEV_ZENITH_SAFETY_MARGIN_DEG cfg)) s3).
  { unfold exec at 1. rewrite go_home_split. reflexivity. }
  assert (Ee : exec (empty_water cfg) s = exec (go_home cfg) s2).
  { unfold exec at 1. rewrite empty_water_split. reflexivity. }
  exists s1, s2, s3,
    (exec (point_to cfg 0 (90 - ELEV_ZENITH_SAFETY_MARGIN_DEG cfg)) s3),
    (fst (az_get_turn_count (devices s2))).
  repeat (split; [first [reflexivity | assumption | congruence]|]).
  assert (Hall : history (exec (empty_water cfg) s)
                 = history s
                   ++ trace_of (point_to cfg 0 60) s
                   ++ [Delay 3000;
                       AzTurnRead (fst (az_get_turn_count (devices s2)));
                       AzStep (unwind_steps cfg
                                 (fst (az_get_turn_count (devices s2)))
                                 (az_init_turn_count s))]
                   ++ trace_of (point_to cfg 0
                                  (90 - ELEV_ZENITH_SAFETY_MARGIN_DEG cfg)) s3).
  { rewrite Ee, Eg, Hh4, Hh3, Hh2, Hh1.
    rewrite <- !app_assoc. reflexivity. }
  split; [exact Hall|].
  rewrite (trace_of_intro _ _ _ Hall).
  rewrite !filter_app. reflexivity.
Qed.

Lemma empty_water_frame (s : Antenna W) :
  az_init_turn_count (exec (empty_water cfg) s) = az_init_turn_count s /\
  filter is_init_write (trace_of (empty_water cfg) s) = [] /\
  history (exec (empty_water cfg) s) = history s ++ trace_of (empty_water cfg) s.
Proof.
  destruct (point_to_trace cfg 0 60 s) as (Hh1 & Hf1 & Hi1).
  set (s1 := exec (point_to cfg 0 60) s) in *.
  set (s2 := exec (delay 3000) s1).
  assert (Ee : exec (empty_water cfg) s = exec (go_home cfg) s2).
  { unfold exec at 1. rewrite empty_water_split. reflexivity. }
  destruct (go_home_trace cfg s2) as (Hg & Hgt & Hgi).
  destruct (point_to_trace cfg 0 (90 - ELEV_ZENITH_SAFETY_MARGIN_DEG cfg)
              (exec (untangle cfg) s2)) as (_ & Hf4 & _).
  assert (Hall : history (exec (empty_water cfg) s)
                 = history s
                   ++ (trace_of (point_to cfg 0 60) s ++ [Delay 3000]
                       ++ trace_of (go_home cfg) s2)).
  { rewrite Ee, Hg. unfold s2 at 1. rewrite delay_run. cbn [history].
    rewrite Hh1. rewrite <- !app_assoc. reflexivity. }
  rewrite (trace_of_intro _ _ _ Hall).
  split; [rewrite Ee, Hgi; unfold s2; rewrite delay_run; exact Hi1|].
  split; [|exact Hall].
  rewrite !filter_app, Hf1, Hgt, filter_app, Hf4. reflexivity.
Qed.

Lemma go_home_frame (s : Antenna W) :
  az_init_turn_count (exec (go_home cfg) s) = az_init_turn_count s /\
  filter is_init_write (trace_of (go_home cfg) s) = [].
Proof.
  destruct (go_home_trace cfg s) as (_ & Hgt & Hgi).
  destruct (point_to_trace cfg 0 (90 - ELEV_ZENITH_SAFETY_MARGIN_DEG cfg)
              (exec (untangle cfg) s)) as (_ & Hf & _).
  split; [exact Hgi|].
  rewrite Hgt, filter_app, Hf. reflexivity.
Qed.

(** The warm-up loop only reads and waits. *)
Lemma warm_up_run (n : nat) :
  forall s : Antenna W,
  exists pre : list Event,
    history (exec (warm_up n) s) = history s ++ pre /\
    length pre = (4 * n)%nat /\
    filter is_init_write pre = [] /\
    filter is_step pre = [] /\
    az_init_turn_count (exec (warm_up n) s) = az_init_turn_count s.
Proof.
  induction n as [|n IH]; intros s.
  - exists []. cbn. rewrite app_nil_r. repeat split; reflexivity.
  - cbn [warm_up]. unfold_members.
    destruct (az_get_encoder_pos_value (devices s)) as [a w1].
    cbn [az_init_turn_count devices history].
    destruct (elev_get_encoder_pos_value (hw_delay 50 w1)) as [e w2].
    cbn [az_init_turn_count devices history].
    match goal with |- context [warm_up n ?s'] =>
      destruct (IH s') as (pre & Hh & Hl & Hf & Hs & Hi) end.
    unfold exec in Hh, Hi.
    exists ([AzPosRead a; Delay 50; ElevPosRead e; Delay 50] ++ pre).
    rewrite Hh, Hi. cbn [az_init_turn_count devices history].
    rewrite <- !app_assoc. cbn [app].
    repeat split; try reflexivity.
    + cbn [length]. lia.
    + cbn [filter is_init_write]. exact Hf.
    + cbn [filter is_step]. exact Hs.
Qed.
End Composite.

Section InitFrame.
Context {W : Type} `{Hardware W}.
Variable cfg : Config.

Lemma new_Antenna_run (w : W) (garbage : Z) :
  exists (pre : list Event) (v : Z),
    history (new_Antenna w garbage)
    = pre ++ [AzTurnRead v; SetInitTurnCount v] /\
    length pre = 40%nat /\
    filter is_init_write pre = [] /\
    filter is_step pre = [] /\
    az_init_turn_count (new_Antenna w garbage) = v.
Proof.
  unfold new_Antenna.
  destruct (warm_up_run 10 (mkAntenna garbage w []))
    as (pre & Hh & Hl & Hf & Hs & _).
  assert (E : exec Antenna_ctor (mkAntenna garbage w [])
              = exec (v <- az_encoder_turn ;; set_init v)
                  (exec (warm_up 10) (mkAntenna garbage w []))).
  { unfold exec, Antenna_ctor, bind.
    destruct (warm_up 10 (mkAntenna garbage w [])) as [[] s1]. reflexivity. }
  rewrite E. clear E.
  set (s1 := exec (warm_up 10) (mkAntenna garbage w [])) in *.
  cbn [history app] in Hh.
  unfold exec, bind, az_encoder_turn, read_with, set_init.
  destruct (az_get_turn_count (devices s1)) as [v w1].
  exists pre, v.
  cbn [snd fst az_init_turn_count devices history].
  rewrite Hh, <- app_assoc.
  repeat split; assumption || reflexivity.
Qed.

(** C10. The constructor writes [az_init_turn_count] once: its history is
    the forty events of the warm-up loop (reads and delays only), then the
    read of the turn count, then the one write of the value read, with
    which the member ends up, whatever it held before.  [point_to],
    [go_home] and [empty_water] leave the member as it was and write it
    nowhere in what they add to the history. *)
Theorem az_init_turn_count_written_once :
  (forall (w : W) (garbage : Z),
      exists (pre : list Event) (v : Z),
        history (new_Antenna w garbage)
        = pre ++ [AzTurnRead v; SetInitTurnCount v] /\
        length pre = 40%nat /\
        filter is_init_write pre = [] /\
        filter is_step pre = [] /\
        az_init_turn_count (new_Antenna w garbage) = v) /\
  (forall (az_deg elev_deg : Q) (s : Antenna W),
      az_init_turn_count (exec (point_to cfg az_deg elev_deg) s)
      = az_init_turn_count s /\
      filter is_init_write (trace_of (point_to cfg az_deg elev_deg) s) = []) /\
  (forall s : Antenna W,
      az_init_turn_count (exec (go_home cfg) s) = az_init_turn_count s /\
      filter is_init_write (trace_of (go_home cfg) s) = []) /\
  (forall s : Antenna W,
      az_init_turn_count (exec (empty_water cfg) s) = az_init_turn_count s /\
      filter is_init_write (trace_of (empty_water cfg) s) = []).
Proof.
  split; [apply new_Antenna_run|].
  split.
  { intros az_deg elev_deg s.
    destruct (point_to_trace cfg az_deg elev_deg s) as (_ & Hf & Hi).
    split; assumption. }
  split; [apply go_home_frame|].
  intros s. destruct (empty_water_frame cfg s) as (Hi & Hf & _).
  split; assumption.
Qed.
End InitFrame.

(** ** The 350-degree scenario *)

(** C9, as stated.  With ENCODERS_MAX = 4096 and north at 0, the target for
    350 degrees is not 3981 and the rewrapped difference from a reading of
    0 is not -115: 350/360 * 4096 is 3982.2. *)
Lemma point_to_350_is_not_3981 :
  ~ (az_target_encoder_val cfg4096 (az_normalized 350) = 3981 /\
     az_encoder_val_diff cfg4096
       (az_target_encoder_val cfg4096 (az_normalized 350)) 0 = -115).
Proof. intros [E _]. vm_compute in E. discriminate E. Qed.

Section Scenario350.
Variable cfg : Config.
Hypothesis EMAX_4096 : ENCODERS_MAX cfg = 4096.
Hypothesis NORTH_0 : AZ_NORTH_ENCODER_VAL cfg = 0.
Context {W : Type} `{Hardware W}.

(** C9, amended.  With ENCODERS_MAX = 4096, north at 0 and an azimuth
    reading of 0, [point_to(350, _)] computes the target 3982, a
    difference of 3982 before the rewrap, which exceeds 2048 and is
    rewrapped to 3982 - 4096 = -114; the main azimuth step is computed
    from -114, a move backward through zero. *)
Theorem point_to_350_scenario (elev_deg : Q) (s : Antenna W) :
  fst (az_get_encoder_pos_value (devices s)) = 0 ->
  az_target_encoder_val cfg (az_normalized 350) = 3982 /\
  Int.sub (az_target_encoder_val cfg (az_normalized 350)) 0 = 3982 /\
  Int.div (ENCODERS_MAX cfg) 2 = 2048 /\
  az_encoder_val_diff cfg
    (az_target_encoder_val cfg (az_normalized 350)) 0 = 3982 - 4096 /\
  3982 - 4096 = -114 /\
  In (AzStep (az_step_to_turn cfg (-114)))
     (trace_of (point_to cfg 350 elev_deg) s).
Proof.
  intros Hcur.
  assert (Et : az_target_encoder_val cfg (az_normalized 350) = 3982).
  { unfold az_target_encoder_val. rewrite EMAX_4096, NORTH_0.
    vm_compute. reflexivity. }
  assert (Ed : az_encoder_val_diff cfg 3982 0 = -114).
  { unfold az_encoder_val_diff, take_shortest_path. rewrite EMAX_4096.
    vm_compute. reflexivity. }
  rewrite Et.
  split; [reflexivity|].
  split; [reflexivity|].
  split; [rewrite EMAX_4096; reflexivity|].
  split; [exact Ed|].
  split; [reflexivity|].
  destruct (point_to_history cfg 350 elev_deg s)
    as (cur & tc & ecur & Ecur & _ & Hhist & _).
  cbv zeta in Hhist.
  rewrite Hcur in Ecur. subst cur. rewrite Et, Ed in Hhist.
  rewrite (trace_of_intro _ _ _ Hhist).
  apply in_or_app. right. apply in_or_app. right. left. reflexivity.
Qed.
End Scenario350.

(** ** The predicted rotation *)

Section Predicted.
Variable cfg : Config.

(** While the predicted encoder position stays inside one revolution the
    quotient by ENCODERS_MAX is 0: the code's prediction is the whole
    number of turns since start-up, times 360. *)
Lemma az_pred_whole_turns (tc init cur diff : Z) :
  0 < ENCODERS_MAX cfg ->
  0 <= cur + diff < ENCODERS_MAX cfg ->
  cur + diff <= Int.INT_MAX ->
  (az_pred_diff_deg_since_init cfg tc init cur diff
   == real_of_int (Int.sub tc init) * 360)%Q.
Proof.
  intros He Hp Hmax. unfold az_pred_diff_deg_since_init, Int.div, Int.add.
  rewrite (int32_id (cur + diff)) by int_in_range.
  rewrite quot_nonneg_div by lia.
  rewrite Z.div_small by lia.
  change (Int.int32 0) with 0. unfold real_of_int.
  change (inject_Z 0) with 0%Q. lra.
Qed.
End Predicted.

(** C2, at [point_to(180, _)] with ENCODERS_MAX = 4096, north at 0, the
    azimuth encoder at 1024.  The rewrapped difference is 1024 and the
    predicted position 2048, half a revolution.  With the turn count at its
    start-up value the code's prediction is 0 degrees where the fractional
    formula gives 180; one turn away from start-up the code's prediction is
    360, under the limit of 380, where the fractional formula gives 540, and
    [point_to] commands no corrective turn. *)
Theorem az_pred_integer_quotient :
  az_encoder_val_diff cfg4096
    (az_target_encoder_val cfg4096 (az_normalized 180)) 1024 = 1024 /\
  (az_pred_diff_deg_since_init cfg4096 100 100 1024 1024 == 0)%Q /\
  (spec_predicted cfg4096 100 100 1024 1024 == 180)%Q /\
  (az_pred_diff_deg_since_init cfg4096 100 99 1024 1024 == 360)%Q /\
  (spec_predicted cfg4096 100 99 1024 1024 == 540)%Q /\
  (AZ_MAX_ROTATION_DEG cfg4096 < spec_predicted cfg4096 100 99 1024 1024)%Q /\
  history (exec (point_to cfg4096 180 0)
             (mkAntenna 99 (mkBench 1024 100 0) []))
  = [AzPosRead 1024; AzTurnRead 100; AzStep 112000;
     ElevPosRead 0; ElevStep 0].
Proof.
  repeat split; vm_compute; reflexivity || discriminate.
Qed.

(** ** The theorems at the bench *)

(** The rewrap at target 3982 and reading 0 on the 12-bit rig. *)
Lemma shortest_path_rewrap_witness :
  (0 < ENCODERS_MAX cfg4096 <= Int.INT_MAX) /\
  (0 <= 3982 < ENCODERS_MAX cfg4096) /\
  (0 <= 0 < ENCODERS_MAX cfg4096) /\
  (Z.abs (az_encoder_val_diff cfg4096 3982 0) <= ENCODERS_MAX cfg4096 / 2 /\
   (0 + az_encoder_val_diff cfg4096 3982 0) mod ENCODERS_MAX cfg4096 = 3982) /\
  (Z.abs (elev_encoder_val_diff cfg4096 3982 0) <= ENCODERS_MAX cfg4096 / 2 /\
   (0 + elev_encoder_val_diff cfg4096 3982 0) mod ENCODERS_MAX cfg4096 = 3982).
Proof.
  assert (H1 : 0 < ENCODERS_MAX cfg4096 <= Int.INT_MAX)
    by (cbn; unfold Int.INT_MAX; lia).
  assert (H2 : 0 <= 3982 < ENCODERS_MAX cfg4096) by (cbn; lia).
  assert (H3 : 0 <= 0 < ENCODERS_MAX cfg4096) by (cbn; lia).
  split; [exact H1|]. split; [exact H2|]. split; [exact H3|].
  exact (shortest_path_rewrap cfg4096 H1 3982 0 H2 H3).
Defined.

(** Cable-wrap protection at [point_to(10, 45)] two turns past start-up. *)
Lemma cable_wrap_correction_witness :
  exists (az_current tc elev_current elev_steps : Z) (corrective : list Event),
    let az_diff :=
      az_encoder_val_diff cfg4096
        (az_target_encoder_val cfg4096 (az_normalized 10)) az_current in
    let pred :=
      az_pred_diff_deg_since_init cfg4096 tc
        (az_init_turn_count bench_two_turns) az_current az_diff in
    history (exec (point_to cfg4096 10 45) bench_two_turns)
    = history bench_two_turns
      ++ [AzPosRead az_current; AzTurnRead tc]
      ++ corrective
      ++ [AzStep (az_step_to_turn cfg4096 az_diff);
          ElevPosRead elev_current; ElevStep elev_steps] /\
    ((AZ_MAX_ROTATION_DEG cfg4096 < pred)%Q ->
       corrective =
         [AzStep (- (AZ_MICRO_STEP_PER_TURN cfg4096 * AZ_REDUC cfg4096))]) /\
    ((pred < - AZ_MAX_ROTATION_DEG cfg4096)%Q ->
       corrective =
         [AzStep (AZ_MICRO_STEP_PER_TURN cfg4096 * AZ_REDUC cfg4096)]) /\
    ((- AZ_MAX_ROTATION_DEG cfg4096 <= pred)%Q ->
     (pred <= AZ_MAX_ROTATION_DEG cfg4096)%Q ->
       corrective = []).
Proof.
  apply (cable_wrap_correction cfg4096 10 45 bench_two_turns).
  - cbn. lra.
  - cbn. lia.
  - cbn. lia.
  - cbn. unfold Int.INT_MAX. lia.
Defined.

(** [go_home] two turns past start-up. *)
Lemma go_home_unwinds_then_parks_witness :
  exists s1 : Antenna Bench,
    s1 = mkAntenna (az_init_turn_count bench_two_turns)
           (az_stepper_step
              ((100 - az_init_turn_count bench_two_turns)
               * AZ_MICRO_STEP_PER_TURN cfg4096 * AZ_REDUC cfg4096)
              (snd (az_get_turn_count (devices bench_two_turns))))
           (history bench_two_turns
            ++ [AzTurnRead 100;
                AzStep ((100 - az_init_turn_count bench_two_turns)
                        * AZ_MICRO_STEP_PER_TURN cfg4096 * AZ_REDUC cfg4096)]) /\
    go_home cfg4096 bench_two_turns
    = point_to cfg4096 0 (90 - ELEV_ZENITH_SAFETY_MARGIN_DEG cfg4096) s1 /\
    history (exec (go_home cfg4096) bench_two_turns)
    = history bench_two_turns
      ++ [AzTurnRead 100;
          AzStep ((100 - az_init_turn_count bench_two_turns)
                  * AZ_MICRO_STEP_PER_TURN cfg4096 * AZ_REDUC cfg4096)]
      ++ trace_of (point_to cfg4096 0 (90 - ELEV_ZENITH_SAFETY_MARGIN_DEG cfg4096)) s1 /\
    (forall s' : Antenna Bench,
        fst (az_get_turn_count (devices s')) = 100 ->
        az_init_turn_count s' = az_init_turn_count bench_two_turns ->
        exists rest : list Event,
          trace_of (go_home cfg4096) s'
          = AzTurnRead 100
            :: AzStep ((100 - az_init_turn_count bench_two_turns)
                       * AZ_MICRO_STEP_PER_TURN cfg4096 * AZ_REDUC cfg4096)
            :: rest).
Proof.
  apply (go_home_unwinds_then_parks cfg4096 bench_two_turns 100).
  - reflexivity.
  - cbn. unfold Int.in_range, Int.INT_MIN, Int.INT_MAX. lia.
  - cbn. unfold Int.in_range, Int.INT_MIN, Int.INT_MAX. lia.
  - cbn. unfold Int.in_range, Int.INT_MIN, Int.INT_MAX. lia.
Defined.

(** The clamp at a request of 100 degrees with a margin of 5. *)
Lemma elevation_clamped_witness :
  (0 <= 90 - ELEV_ZENITH_SAFETY_MARGIN_DEG cfg4096)%Q /\
  ((90 - ELEV_ZENITH_SAFETY_MARGIN_DEG cfg4096 < 100)%Q ->
     elev_clamp cfg4096 100 = (90 - ELEV_ZENITH_SAFETY_MARGIN_DEG cfg4096)%Q) /\
  ((100 < 0)%Q -> elev_clamp cfg4096 100 = 0%Q) /\
  ((0 <= 100)%Q ->
   (100 <= 90 - ELEV_ZENITH_SAFETY_MARGIN_DEG cfg4096)%Q ->
     elev_clamp cfg4096 100 = 100%Q) /\
  (0 <= elev_clamp cfg4096 100)%Q /\
  (elev_clamp cfg4096 100 <= 90 - ELEV_ZENITH_SAFETY_MARGIN_DEG cfg4096)%Q /\
  (forall (az_deg : Q) (s : Antenna Bench),
      point_to cfg4096 az_deg 100 s
      = point_to cfg4096 az_deg (elev_clamp cfg4096 100) s).
Proof.
  assert (Hm : (0 <= 90 - ELEV_ZENITH_SAFETY_MARGIN_DEG cfg4096)%Q)
    by (cbn; lra).
  split; [exact Hm|].
  exact (elevation_clamped cfg4096 100 Hm).
Defined.

(** The 350-degree scenario on the rig. *)
Lemma point_to_350_scenario_witness :
  az_target_encoder_val cfg4096 (az_normalized 350) = 3982 /\
  Int.sub (az_target_encoder_val cfg4096 (az_normalized 350)) 0 = 3982 /\
  Int.div (ENCODERS_MAX cfg4096) 2 = 2048 /\
  az_encoder_val_diff cfg4096
    (az_target_encoder_val cfg4096 (az_normalized 350)) 0 = 3982 - 4096 /\
  3982 - 4096 = -114 /\
  In (AzStep (az_step_to_turn cfg4096 (-114)))
     (trace_of (point_to cfg4096 350 45) bench_two_turns).
Proof.
  apply (point_to_350_scenario cfg4096 eq_refl eq_refl 45 bench_two_turns).
  reflexivity.
Defined.

(** * Further properties of the member functions *)

(** ** Casts of quotients *)

Lemma Qlt_bool_comp (x y z : Q) : (x == y)%Q -> Qlt_bool x z = Qlt_bool y z.
Proof.
  intros E. destruct (Qlt_bool y z) eqn:Ey.
  - apply Qlt_bool_iff. apply Qlt_bool_iff in Ey. rewrite E. assumption.
  - apply Qlt_bool_false_iff. apply Qlt_bool_false_iff in Ey.
    rewrite E. assumption.
Qed.

Lemma Qtrunc_comp (x y : Q) : (x == y)%Q -> Qtrunc x = Qtrunc y.
Proof.
  intros E. unfold Qtrunc. rewrite (Qlt_bool_comp x y 0 E).
  destruct (Qlt_bool y 0).
  - apply Qceiling_comp. assumption.
  - apply Qfloor_comp. assumption.
Qed.

Lemma Qtrunc_inject_Z (n : Z) : Qtrunc (inject_Z n) = n.
Proof.
  unfold Qtrunc. destruct (Qlt_bool (inject_Z n) 0).
  - apply Qceiling_Z.
  - apply Qfloor_Z.
Qed.

Lemma Qfloor_unique (q : Q) (n : Z) :
  (inject_Z n <= q)%Q -> (q < inject_Z (n + 1))%Q -> Qfloor q = n.
Proof.
  intros Hlo Hhi.
  assert (H1 : n <= Qfloor q).
  { rewrite <- (Qfloor_Z n). apply Qfloor_resp_le. assumption. }
  assert (H2 : Qfloor q < n + 1).
  { rewrite Zlt_Qlt. apply Qle_lt_trans with q; [apply Qfloor_le|assumption]. }
  lia.
Qed.

Lemma Qfloor_add_Z (q : Q) (n : Z) : Qfloor (q + inject_Z n) = Qfloor q + n.
Proof.
  apply Qfloor_unique.
  - rewrite inject_Z_plus. pose proof (Qfloor_le q). lra.
  - replace (Qfloor q + n + 1) with ((Qfloor q + 1) + n) by lia.
    rewrite inject_Z_plus. pose proof (Qlt_floor q). lra.
Qed.

Lemma Qdiv_inject_Z (a e : Z) :
  0 < e -> (inject_Z a / inject_Z e == a # Z.to_pos e)%Q.
Proof.
  intros He. destruct e as [|p|p]; try lia.
  unfold Qdiv, Qinv, inject_Z, Qmult, Qeq. cbn. lia.
Qed.

(** A cast of the ratio of two integers is their C++ quotient. *)
Lemma Qtrunc_ratio (a e : Z) :
  0 < e -> Qtrunc (inject_Z a / inject_Z e) = Z.quot a e.
Proof.
  intros He. rewrite (Qtrunc_comp _ _ (Qdiv_inject_Z a e He)).
  destruct e as [|p|p]; try lia. cbn [Z.to_pos].
  unfold Qtrunc. destruct (Qlt_bool (a # p) 0) eqn:E.
  - apply Qlt_bool_iff in E. unfold Qlt in E. cbn in E.
    unfold Qceiling, Qfloor. cbn.
    assert (Ha : a < 0) by lia.
    replace a with (- (- a)) at 2 by lia.
    rewrite Z.quot_opp_l by lia.
    rewrite quot_nonneg_div by lia. reflexivity.
  - apply Qlt_bool_false_iff in E. unfold Qle in E. cbn in E.
    unfold Qfloor. rewrite quot_nonneg_div by lia. reflexivity.
Qed.

(** ** Microstep counts *)

Lemma steps_as_ratio (d r m e : Z) :
  0 < e ->
  (real_of_int d / inject_Z e * inject_Z r * inject_Z m
   == inject_Z (d * r * m) / inject_Z e)%Q.
Proof.
  intros He. unfold real_of_int. rewrite !inject_Z_mult.
  assert (Hne : ~ (inject_Z e == 0)%Q).
  { intros E0. unfold Qeq in E0. cbn in E0. lia. }
  field. assumption.
Qed.

Lemma quot_half_turn (d rm e : Z) :
  0 < e -> 0 <= rm -> 2 * Z.abs d <= e ->
  2 * Z.abs (Z.quot (d * rm) e) <= rm /\
  (0 <= d -> 0 <= Z.quot (d * rm) e) /\
  (d <= 0 -> Z.quot (d * rm) e <= 0).
Proof.
  intros He Hrm Hd.
  assert (Hpos : forall a, 0 <= a -> 2 * a <= e * rm ->
                           0 <= a / e /\ 2 * (a / e) <= rm).
  { intros a Ha Hb.
    pose proof (Z.mul_div_le a e He) as Hq.
    pose proof (Z.div_pos a e Ha He) as Hq0.
    split; [assumption|].
    apply (Z.mul_le_mono_pos_l _ _ e He). nia. }
  destruct (Z_le_gt_dec 0 d) as [Hd0 | Hd0].
  - assert (Ha : 0 <= d * rm) by nia.
    rewrite quot_nonneg_div by lia.
    destruct (Hpos (d * rm) Ha ltac:(nia)) as [Hq0 Hq1].
    repeat split; try lia.
    intros Hd1. assert (d = 0) by lia. subst d. cbn. lia.
  - assert (Ha : 0 <= (- d) * rm) by nia.
    replace (d * rm) with (- ((- d) * rm)) by lia.
    rewrite Z.quot_opp_l by lia.
    rewrite quot_nonneg_div by lia.
    destruct (Hpos ((- d) * rm) Ha ltac:(nia)) as [Hq0 Hq1].
    repeat split; lia.
Qed.

Section StepCounts.
Variable cfg : Config.
Hypothesis EMAX_pos : 0 < ENCODERS_MAX cfg.

Lemma steps_half_turn (diff r m : Z) :
  0 < r -> 0 < m -> r * m <= Int.INT_MAX ->
  2 * Z.abs diff <= ENCODERS_MAX cfg ->
  let steps :=
    int_of_real (real_of_int diff / inject_Z (ENCODERS_MAX cfg)
                 * inject_Z r * inject_Z m)%Q in
  steps = Z.quot (diff * r * m) (ENCODERS_MAX cfg) /\
  2 * Z.abs steps <= r * m /\
  (0 <= diff -> 0 <= steps) /\
  (diff <= 0 -> steps <= 0).
Proof.
  intros Hr Hm Hfit Hd. cbv zeta. unfold int_of_real.
  rewrite (Qtrunc_comp _ _ (steps_as_ratio diff r m _ EMAX_pos)).
  rewrite Qtrunc_ratio by assumption.
  replace (diff * r * m) with (diff * (r * m)) by lia.
  destruct (quot_half_turn diff (r * m) (ENCODERS_MAX cfg) EMAX_pos
              ltac:(nia) Hd) as (Hb & Hp & Hn).
  rewrite int32_id by int_in_range.
  repeat split; assumption.
Qed.

(** X6. For a difference of at most half a revolution of an encoder of at
    most 2^24 counts, with positive reductions and microstep counts whose
    product is at most 2^24 (so that every intermediate value of the float
    computation is a whole or half number it represents exactly):
    the azimuth step count is at most half of AZ_MICRO_STEP_PER_TURN *
    AZ_REDUC in absolute value and has the sign of the difference; the
    count commanded to the elevation stepper is at most half of
    ELEV_MICRO_STEP_PER_TURN * ELEV_REDUC in absolute value and has the
    opposite sign. *)
Theorem main_steps_within_half_turn (diff : Z) :
  ENCODERS_MAX cfg <= 2 ^ 24 ->
  0 < AZ_REDUC cfg -> 0 < AZ_MICRO_STEP_PER_TURN cfg ->
  AZ_REDUC cfg * AZ_MICRO_STEP_PER_TURN cfg <= 2 ^ 24 ->
  0 < ELEV_REDUC cfg -> 0 < ELEV_MICRO_STEP_PER_TURN cfg ->
  ELEV_REDUC cfg * ELEV_MICRO_STEP_PER_TURN cfg <= 2 ^ 24 ->
  2 * Z.abs diff <= ENCODERS_MAX cfg ->
  (2 * Z.abs (az_step_to_turn cfg diff)
     <= AZ_REDUC cfg * AZ_MICRO_STEP_PER_TURN cfg /\
   (0 <= diff -> 0 <= az_step_to_turn cfg diff) /\
   (diff <= 0 -> az_step_to_turn cfg diff <= 0)) /\
  (Int.neg (elev_step_to_turn cfg diff) = - elev_step_to_turn cfg diff /\
   2 * Z.abs (Int.neg (elev_step_to_turn cfg diff))
     <= ELEV_REDUC cfg * ELEV_MICRO_STEP_PER_TURN cfg /\
   (0 <= diff -> Int.neg (elev_step_to_turn cfg diff) <= 0) /\
   (diff <= 0 -> 0 <= Int.neg (elev_step_to_turn cfg diff))).
Proof.
  intros _ Har Ham Hafit' Her Hem Hefit' Hd.
  assert (Hafit : AZ_REDUC cfg * AZ_MICRO_STEP_PER_TURN cfg <= Int.INT_MAX)
    by (unfold Int.INT_MAX; lia).
  assert (Hefit : ELEV_REDUC cfg * ELEV_MICRO_STEP_PER_TURN cfg <= Int.INT_MAX)
    by (unfold Int.INT_MAX; lia).
  destruct (steps_half_turn diff _ _ Har Ham Hafit Hd) as (_ & Ab & Ap & An).
  destruct (steps_half_turn diff _ _ Her Hem Hefit Hd) as (_ & Eb & Ep & En).
  cbv zeta in *.
  fold (az_step_to_turn cfg diff) in Ab, Ap, An.
  fold (elev_step_to_turn cfg diff) in Eb, Ep, En.
  split; [repeat split; assumption|].
  assert (Eneg : Int.neg (elev_step_to_turn cfg diff)
                 = - elev_step_to_turn cfg diff).
  { unfold Int.neg. apply int32_id. int_in_range. }
  rewrite Eneg. repeat split; lia.
Qed.

Lemma diff_zero_on_target (t : Z) :
  ENCODERS_MAX cfg <= Int.INT_MAX ->
  take_shortest_path cfg (Int.sub t t) = 0.
Proof.
  intros Hmax. unfold Int.sub. rewrite Z.sub_diag.
  change (Int.int32 0) with 0. unfold take_shortest_path.
  rewrite half_small by lia.
  change (Int.abs 0) with 0.
  pose proof (Z.div_pos (ENCODERS_MAX cfg) 2 ltac:(lia) ltac:(lia)) as Hh.
  destruct (ENCODERS_MAX cfg / 2 <? 0) eqn:E; [|reflexivity].
  apply Z.ltb_lt in E. lia.
Qed.

Lemma steps_zero (r m : Z) :
  int_of_real (real_of_int 0 / inject_Z (ENCODERS_MAX cfg)
               * inject_Z r * inject_Z m)%Q = 0.
Proof.
  unfold int_of_real.
  rewrite (Qtrunc_comp _ _ (steps_as_ratio 0 r m _ EMAX_pos)).
  rewrite Qtrunc_ratio by assumption.
  rewrite !Z.mul_0_l, Z.quot_0_l by lia. reflexivity.
Qed.

Context {W : Type} `{Hardware W}.

(** X7. When the azimuth encoder already reads the azimuth target the main
    azimuth step of [point_to] is 0, and when the elevation encoder already
    reads the elevation target the elevation step is 0; the step commands
    are issued all the same. *)
Theorem on_target_zero_steps (az_deg elev_deg : Q) (s : Antenna W) :
  ENCODERS_MAX cfg <= Int.INT_MAX ->
  exists (az_current tc elev_current main elev_steps : Z)
         (corrective : list Z),
    history (exec (point_to cfg az_deg elev_deg) s)
    = history s
      ++ [AzPosRead az_current; AzTurnRead tc]
      ++ map AzStep corrective
      ++ [AzStep main; ElevPosRead elev_current; ElevStep elev_steps] /\
    (az_current = az_target_encoder_val cfg (az_normalized az_deg) ->
     main = 0) /\
    (elev_current = elev_target_encoder_val cfg (elev_clamp cfg elev_deg) ->
     elev_steps = 0).
Proof.
  intros Hmax.
  destruct (point_to_history cfg az_deg elev_deg s)
    as (cur & tc & ecur & _ & _ & Hhist & _).
  cbv zeta in Hhist.
  do 5 eexists. eexists.
  split; [exact Hhist|].
  split.
  - intros ->. unfold az_encoder_val_diff.
    rewrite diff_zero_on_target by assumption.
    unfold az_step_to_turn. apply steps_zero.
  - intros ->. unfold elev_encoder_val_diff.
    rewrite diff_zero_on_target by assumption.
    unfold elev_step_to_turn. rewrite steps_zero. reflexivity.
Qed.
End StepCounts.

(** ** More on the shortest path *)

Section ShortestPath.
Variable cfg : Config.
Hypothesis EMAX_int : 0 < ENCODERS_MAX cfg <= Int.INT_MAX.

(** X3. For a target and a reading in [0, ENCODERS_MAX) no difference that
    leads to the target, whatever number of whole revolutions it adds, is
    smaller in absolute value than the one the rewrap leaves. *)
Theorem rewrapped_diff_is_minimal (target current k : Z) :
  0 <= target < ENCODERS_MAX cfg ->
  0 <= current < ENCODERS_MAX cfg ->
  Z.abs (take_shortest_path cfg (Int.sub target current))
  <= Z.abs (target - current + k * ENCODERS_MAX cfg).
Proof.
  intros Ht Hc.
  destruct (take_shortest_path_cases cfg EMAX_int target current Ht Hc)
    as [Habs Hcases].
  cbv zeta in *.
  set (d := take_shortest_path cfg (Int.sub target current)) in *.
  pose proof (Z.mul_div_le (ENCODERS_MAX cfg) 2 ltac:(lia)) as Hh.
  assert (Hother : forall m : Z,
             Z.abs d <= Z.abs (d + m * ENCODERS_MAX cfg)).
  { intros m.
    destruct (Z.eq_dec m 0) as [-> | Hm]; [rewrite Z.add_0_r; lia|].
    destruct (Z_le_gt_dec 1 m).
    - assert (ENCODERS_MAX cfg <= m * ENCODERS_MAX cfg) by nia. lia.
    - assert (m * ENCODERS_MAX cfg <= - ENCODERS_MAX cfg) by nia. lia. }
  destruct Hcases as [E | [E | E]].
  - specialize (Hother k). rewrite E in Hother at 2. exact Hother.
  - specialize (Hother (k - 1)). rewrite E in Hother at 2.
    replace (target - current + ENCODERS_MAX cfg + (k - 1) * ENCODERS_MAX cfg)
      with (target - current + k * ENCODERS_MAX cfg) in Hother by lia.
    exact Hother.
  - specialize (Hother (k + 1)). rewrite E in Hother at 2.
    replace (target - current - ENCODERS_MAX cfg + (k + 1) * ENCODERS_MAX cfg)
      with (target - current + k * ENCODERS_MAX cfg) in Hother by lia.
    exact Hother.
Qed.

(** X4. The rewrap adds or subtracts ENCODERS_MAX once.  For any raw
    difference (as from a reading outside [0, ENCODERS_MAX)) the result is
    within half a revolution exactly when the raw difference is within one
    revolution and a half. *)
Theorem rewrap_is_applied_once (encoder_val_diff : Z) :
  Z.abs encoder_val_diff + ENCODERS_MAX cfg <= Int.INT_MAX ->
  (Z.abs (take_shortest_path cfg encoder_val_diff) <= ENCODERS_MAX cfg / 2
   <-> Z.abs encoder_val_diff <= ENCODERS_MAX cfg / 2 + ENCODERS_MAX cfg).
Proof.
  intros Hfit. unfold take_shortest_path.
  assert (Hmax : ENCODERS_MAX cfg <= 2 ^ 31 - 1)
    by (unfold Int.INT_MAX in *; lia).
  unfold Int.INT_MAX in Hfit.
  rewrite half_small by assumption.
  rewrite int_abs_small by lia.
  pose proof (Z.mul_div_le (ENCODERS_MAX cfg) 2 ltac:(lia)) as Hh.
  pose proof (Z.div_pos (ENCODERS_MAX cfg) 2 ltac:(lia) ltac:(lia)) as Hh0.
  pose proof (Z.div_mod (ENCODERS_MAX cfg) 2 ltac:(lia)) as Hdm.
  pose proof (Z.mod_pos_bound (ENCODERS_MAX cfg) 2 ltac:(lia)) as Hmb.
  destruct (ENCODERS_MAX cfg / 2 <? Z.abs encoder_val_diff) eqn:Ebig.
  - apply Z.ltb_lt in Ebig.
    destruct (encoder_val_diff <? 0) eqn:Eneg.
    + apply Z.ltb_lt in Eneg. unfold Int.add.
      rewrite int32_id by int_in_range. lia.
    + apply Z.ltb_ge in Eneg. unfold Int.sub.
      rewrite int32_id by int_in_range. lia.
  - apply Z.ltb_ge in Ebig. lia.
Qed.
End ShortestPath.

(** ** Targets *)

Lemma az_normalized_below_360 (az_deg : Q) :
  (az_deg < 360)%Q ->
  (0 <= az_normalized az_deg)%Q /\ (az_normalized az_deg < 360)%Q.
Proof.
  intros Hlt.
  pose proof (az_wrap_enough az_deg) as Hen.
  destruct (az_wrap_run _ az_deg (az_wrap_fuel_covers az_deg))
    as (k & r & Hrun & _ & _ & H0 & Hneg & Hpos).
  fold (az_wrap_fuel az_deg) in Hrun.
  assert (Er : r = az_normalized az_deg) by congruence. subst r.
  split; [assumption|].
  destruct (Qlt_le_dec az_deg 0) as [Hn | Hp].
  - apply Hneg. assumption.
  - destruct (Hpos Hp) as [_ ->]. assumption.
Qed.

(** A negative [az_deg] and [az_deg + 360] leave the loop with the same
    value. *)
Lemma az_normalized_shift_neg (az_deg : Q) :
  (az_deg < 0)%Q -> az_normalized (az_deg + 360) = az_normalized az_deg.
Proof.
  intros Hneg.
  pose proof (az_wrap_enough az_deg) as H1.
  pose proof (az_wrap_enough (az_deg + 360)) as H2.
  set (n := Nat.max (az_wrap_fuel az_deg) (S (az_wrap_fuel (az_deg + 360)))).
  assert (H1' : az_wrap n az_deg = Some (az_normalized az_deg))
    by (apply (az_wrap_more _ _ _ n H1); unfold n; lia).
  assert (H2' : az_wrap (Nat.pred n) (az_deg + 360)
                = Some (az_normalized (az_deg + 360)))
    by (apply (az_wrap_more _ _ _ (Nat.pred n) H2); unfold n; lia).
  assert (En : n = S (Nat.pred n)) by (unfold n; lia).
  rewrite En in H1'. cbn [az_wrap] in H1'.
  apply Qlt_bool_iff in Hneg. rewrite Hneg in H1'. congruence.
Qed.

Section Targets.
Variable cfg : Config.
Hypothesis EMAX_small : 0 < ENCODERS_MAX cfg <= 2 ^ 29.
Hypothesis NORTH_range : 0 <= AZ_NORTH_ENCODER_VAL cfg < ENCODERS_MAX cfg.

(** The cast and the remainder of the azimuth target on a non-negative
    angle of at most [turns] revolutions. *)
Lemma az_target_mod (a : Q) (turns : Z) :
  (0 <= a)%Q -> (a <= 360 * inject_Z turns)%Q -> 0 <= turns <= 2 ->
  az_target_encoder_val cfg a
  = Qfloor (a / 360 * inject_Z (ENCODERS_MAX cfg)
            + inject_Z (AZ_NORTH_ENCODER_VAL cfg))
    mod ENCODERS_MAX cfg.
Proof.
  intros Ha0 Ha1 Ht.
  assert (He0 : (0 <= inject_Z (ENCODERS_MAX cfg))%Q)
    by (change 0%Q with (inject_Z 0); rewrite <- Zle_Qle; lia).
  assert (Hn0 : (0 <= inject_Z (AZ_NORTH_ENCODER_VAL cfg))%Q)
    by (change 0%Q with (inject_Z 0); rewrite <- Zle_Qle; lia).
  assert (Hn1 : (inject_Z (AZ_NORTH_ENCODER_VAL cfg)
                 <= inject_Z (ENCODERS_MAX cfg))%Q)
    by (rewrite <- Zle_Qle; lia).
  assert (Ht2 : (inject_Z turns <= 2)%Q)
    by (change 2%Q with (inject_Z 2); rewrite <- Zle_Qle; lia).
  assert (Hr0 : (0 <= a / 360)%Q) by (apply Qle_shift_div_l; lra).
  assert (Hr1 : (a / 360 <= 2)%Q) by (apply Qle_shift_div_r; lra).
  assert (Hp0 : (0 <= a / 360 * inject_Z (ENCODERS_MAX cfg))%Q)
    by (apply Qmult_le_0_compat; assumption).
  assert (Hp1 : (a / 360 * inject_Z (ENCODERS_MAX cfg)
                 <= 2 * inject_Z (ENCODERS_MAX cfg))%Q)
    by (apply Qmult_le_compat_r; assumption).
  set (x := (a / 360 * inject_Z (ENCODERS_MAX cfg)
             + inject_Z (AZ_NORTH_ENCODER_VAL cfg))%Q).
  assert (Hx0 : (0 <= x)%Q) by (unfold x; lra).
  assert (Hx1 : (x <= inject_Z (3 * ENCODERS_MAX cfg))%Q).
  { rewrite inject_Z_mult. change (inject_Z 3) with 3%Q. unfold x. lra. }
  destruct (Qfloor_bounds x (3 * ENCODERS_MAX cfg) Hx0 Hx1) as [Hf0 Hf1].
  unfold az_target_encoder_val, int_of_real. fold x.
  rewrite Qtrunc_nonneg by assumption.
  rewrite int32_id by int_in_range.
  apply rem_nonneg_mod; lia.
Qed.

Lemma az_target_range (az_deg : Q) :
  (az_deg < 360)%Q ->
  0 <= az_target_encoder_val cfg (az_normalized az_deg) < ENCODERS_MAX cfg.
Proof.
  intros Hlt. destruct (az_normalized_below_360 az_deg Hlt) as [H0 H1].
  rewrite (az_target_mod _ 1) by (try lia; change (inject_Z 1) with 1%Q; lra).
  apply Z.mod_pos_bound. lia.
Qed.

Context {W : Type} `{Hardware W}.

End Targets.

Section ValidTargets.
Variable cfg : Config.
Hypothesis EMAX_small : 0 < ENCODERS_MAX cfg <= 2 ^ 29.
Hypothesis NORTH_range : 0 <= AZ_NORTH_ENCODER_VAL cfg < ENCODERS_MAX cfg.
Hypothesis ZENITH_range :
  0 <= ELEV_ZENITH_ENCODER_VAL cfg < ENCODERS_MAX cfg.
Hypothesis MARGIN_range :
  (0 <= ELEV_ZENITH_SAFETY_MARGIN_DEG cfg)%Q /\
  (ELEV_ZENITH_SAFETY_MARGIN_DEG cfg <= 90)%Q.

Lemma EMAX_fits : 0 < ENCODERS_MAX cfg <= Int.INT_MAX.
Proof. unfold Int.INT_MAX. lia. Qed.

Lemma elev_target_range (elev_deg : Q) :
  0 <= elev_target_encoder_val cfg (elev_clamp cfg elev_deg)
  < ENCODERS_MAX cfg.
Proof.
  rewrite elev_target_mod by assumption. apply Z.mod_pos_bound. lia.
Qed.

Context {W : Type} `{Hardware W}.

(** X2. On an encoder of at most 2^29 counts with the north and zenith
    references in [0, ENCODERS_MAX) and a margin between 0 and 90, for an
    azimuth request below 360 degrees: both targets [point_to] computes are
    encoder values in [0, ENCODERS_MAX), and on each axis, when the encoder
    reading is in [0, ENCODERS_MAX) too, the difference the step is
    computed from is at most half a revolution and leads from the reading
    to the target modulo ENCODERS_MAX. *)
Theorem point_to_moves_by_shortest_path (az_deg elev_deg : Q) (s : Antenna W) :
  (az_deg < 360)%Q ->
  exists (az_current tc elev_current az_diff elev_diff : Z)
         (corrective : list Z),
    let az_target := az_target_encoder_val cfg (az_normalized az_deg) in
    let elev_target :=
      elev_target_encoder_val cfg (elev_clamp cfg elev_deg) in
    history (exec (point_to cfg az_deg elev_deg) s)
    = history s
      ++ [AzPosRead az_current; AzTurnRead tc]
      ++ map AzStep corrective
      ++ [AzStep (az_step_to_turn cfg az_diff);
          ElevPosRead elev_current;
          ElevStep (Int.neg (elev_step_to_turn cfg elev_diff))] /\
    0 <= az_target < ENCODERS_MAX cfg /\
    0 <= elev_target < ENCODERS_MAX cfg /\
    (0 <= az_current < ENCODERS_MAX cfg ->
     Z.abs az_diff <= ENCODERS_MAX cfg / 2 /\
     (az_current + az_diff) mod ENCODERS_MAX cfg = az_target) /\
    (0 <= elev_current < ENCODERS_MAX cfg ->
     Z.abs elev_diff <= ENCODERS_MAX cfg / 2 /\
     (elev_current + elev_diff) mod ENCODERS_MAX cfg = elev_target).
Proof.
  intros Hlt.
  destruct (point_to_history cfg az_deg elev_deg s)
    as (cur & tc & ecur & _ & _ & Hhist & _).
  cbv zeta in Hhist.
  pose proof (az_target_range cfg EMAX_small NORTH_range az_deg Hlt) as Hat.
  pose proof (elev_target_range elev_deg) as Het.
  do 5 eexists. eexists. cbv zeta.
  split; [exact Hhist|].
  split; [exact Hat|]. split; [exact Het|].
  split.
  - intros Hc. unfold az_encoder_val_diff. split.
    + apply (take_shortest_path_cases cfg EMAX_fits _ _ Hat Hc).
    + apply (take_shortest_path_reaches cfg EMAX_fits _ _ Hat Hc).
  - intros Hc. unfold elev_encoder_val_diff. split.
    + apply (take_shortest_path_cases cfg EMAX_fits _ _ Het Hc).
    + apply (take_shortest_path_reaches cfg EMAX_fits _ _ Het Hc).
Qed.

Lemma inject_Z_unit_interval (m : Z) :
  (0 <= 360 * inject_Z m)%Q -> (360 * inject_Z m < 360)%Q -> m = 0.
Proof.
  intros H0 H1.
  assert (Ha : (inject_Z 0 <= inject_Z m)%Q)
    by (change (inject_Z 0) with 0%Q; lra).
  assert (Hb : (inject_Z m < inject_Z 1)%Q)
    by (change (inject_Z 1) with 1%Q; lra).
  rewrite <- Zle_Qle in Ha. rewrite <- Zlt_Qlt in Hb. lia.
Qed.

Lemma az_normalized_whole_turns (az_deg : Q) (k : Z) :
  (az_deg == 360 * inject_Z k)%Q -> k <= 0 ->
  (az_normalized az_deg == 0)%Q.
Proof.
  intros Eaz Hk.
  pose proof (az_wrap_enough az_deg) as Hen.
  destruct (az_wrap_run _ az_deg (az_wrap_fuel_covers az_deg))
    as (k' & r & Hrun & _ & Hr & H0 & Hneg & Hpos).
  fold (az_wrap_fuel az_deg) in Hrun.
  assert (Er : r = az_normalized az_deg) by congruence. subst r.
  assert (Hk0 : (inject_Z k <= 0)%Q)
    by (change 0%Q with (inject_Z 0); rewrite <- Zle_Qle; lia).
  destruct (Qlt_le_dec az_deg 0) as [Hn | Hp].
  - specialize (Hneg Hn).
    assert (Em : (az_normalized az_deg
                  == 360 * inject_Z (k + Z.of_nat k'))%Q)
      by (rewrite inject_Z_plus, Hr, Eaz; ring).
    rewrite Em in H0, Hneg.
    rewrite (inject_Z_unit_interval _ H0 Hneg) in Em.
    rewrite Em. reflexivity.
  - destruct (Hpos Hp) as [_ ->]. lra.
Qed.

Lemma az_target_at_zero (a : Q) :
  (a == 0)%Q -> az_target_encoder_val cfg a = AZ_NORTH_ENCODER_VAL cfg.
Proof.
  intros Ea. unfold az_target_encoder_val, int_of_real.
  assert (Ex : (a / 360 * inject_Z (ENCODERS_MAX cfg)
                + inject_Z (AZ_NORTH_ENCODER_VAL cfg)
                == inject_Z (AZ_NORTH_ENCODER_VAL cfg))%Q)
    by (rewrite Ea; field).
  rewrite (Qtrunc_comp _ _ Ex), Qtrunc_inject_Z.
  rewrite int32_id by int_in_range.
  unfold Int.rem. apply Z.rem_small. lia.
Qed.

Lemma elev_target_at (c : Q) (n : Z) :
  (c / 360 * inject_Z (ENCODERS_MAX cfg) == inject_Z n)%Q ->
  0 <= n <= ENCODERS_MAX cfg ->
  elev_target_encoder_val cfg c
  = (n + ELEV_HORIZON_ENCODER_OFFSET_VAL cfg) mod ENCODERS_MAX cfg.
Proof.
  intros Ec Hn.
  pose proof (horizon_offset_range cfg EMAX_small ZENITH_range) as Hh.
  unfold elev_target_encoder_val, int_of_real.
  assert (Ex : (c / 360 * inject_Z (ENCODERS_MAX cfg)
                + inject_Z (ELEV_HORIZON_ENCODER_OFFSET_VAL cfg)
                == inject_Z (n + ELEV_HORIZON_ENCODER_OFFSET_VAL cfg))%Q)
    by (rewrite Ec, inject_Z_plus; reflexivity).
  rewrite (Qtrunc_comp _ _ Ex), Qtrunc_inject_Z.
  rewrite int32_id by int_in_range.
  apply rem_nonneg_mod; lia.
Qed.

(** X13. Reference angles reach the reference encoder values.  On an
    encoder of at most 2^29 counts with north and zenith references in
    [0, ENCODERS_MAX) and a margin between 0 and 90: an azimuth request of
    0 or of a negative whole number of revolutions, down to 2^15 of them
    (whole numbers of degrees that a float adds exactly), targets
    AZ_NORTH_ENCODER_VAL; an elevation request of 0 or below targets the
    horizon offset; and when the margin is 0 and ENCODERS_MAX is a multiple
    of 4, an elevation request of 90 or above targets
    ELEV_ZENITH_ENCODER_VAL. *)
Theorem reference_angles_reach_reference_values :
  (forall (az_deg : Q) (k : Z),
      (az_deg == 360 * inject_Z k)%Q -> - 2 ^ 15 <= k <= 0 ->
      az_target_encoder_val cfg (az_normalized az_deg)
      = AZ_NORTH_ENCODER_VAL cfg) /\
  (forall elev_deg : Q,
      (elev_deg <= 0)%Q ->
      elev_target_encoder_val cfg (elev_clamp cfg elev_deg)
      = ELEV_HORIZON_ENCODER_OFFSET_VAL cfg) /\
  (forall elev_deg : Q,
      (ELEV_ZENITH_SAFETY_MARGIN_DEG cfg == 0)%Q ->
      ENCODERS_MAX cfg mod 4 = 0 ->
      (90 <= elev_deg)%Q ->
      elev_target_encoder_val cfg (elev_clamp cfg elev_deg)
      = ELEV_ZENITH_ENCODER_VAL cfg).
Proof.
  pose proof (horizon_offset_range cfg EMAX_small ZENITH_range) as Hh.
  destruct MARGIN_range as [Hm0 Hm1].
  split; [|split].
  - intros az_deg k Eaz Hk. apply az_target_at_zero.
    apply (az_normalized_whole_turns az_deg k); [assumption|lia].
  - intros e He.
    assert (Ec : (elev_clamp cfg e == 0)%Q).
    { destruct (Qlt_le_dec e 0) as [Hn | Hp].
      - rewrite elev_clamp_below by (assumption || lra). reflexivity.
      - rewrite elev_clamp_inside by lra. lra. }
    rewrite (elev_target_at _ 0) by (try lia; rewrite Ec; field).
    rewrite Z.add_0_l. apply Z.mod_small. assumption.
  - intros e Em E4 He.
    assert (Ec : (elev_clamp cfg e == 90)%Q).
    { destruct (Qlt_le_dec (90 - ELEV_ZENITH_SAFETY_MARGIN_DEG cfg) e)
        as [Ha | Hb].
      - rewrite elev_clamp_above by (assumption || lra). lra.
      - rewrite elev_clamp_inside by lra. lra. }
    pose proof (Z.div_mod (ENCODERS_MAX cfg) 4 ltac:(lia)) as Hdm.
    rewrite E4, Z.add_0_r in Hdm.
    rewrite (elev_target_at _ (ENCODERS_MAX cfg / 4)).
    + rewrite (horizon_offset_mod cfg EMAX_small ZENITH_range).
      rewrite Z.add_mod_idemp_r by lia.
      replace (ENCODERS_MAX cfg / 4
               + (ELEV_ZENITH_ENCODER_VAL cfg - ENCODERS_MAX cfg / 4
                  + ENCODERS_MAX cfg))
        with (ELEV_ZENITH_ENCODER_VAL cfg + 1 * ENCODERS_MAX cfg) by lia.
      rewrite Z.mod_add by lia. apply Z.mod_small. assumption.
    + rewrite Ec. rewrite Hdm at 1. rewrite inject_Z_mult.
      change (inject_Z 4) with 4%Q. field.
    + lia.
Qed.
End ValidTargets.

(** ** What the prediction sees *)

Section Prediction.
Variable cfg : Config.
Hypothesis EMAX_small : 0 < ENCODERS_MAX cfg <= 2 ^ 29.

Lemma take_shortest_path_exact (t c : Z) :
  0 <= t < ENCODERS_MAX cfg -> 0 <= c < ENCODERS_MAX cfg ->
  let d := take_shortest_path cfg (Int.sub t c) in
  (t - c < - (ENCODERS_MAX cfg / 2) -> d = t - c + ENCODERS_MAX cfg) /\
  (- (ENCODERS_MAX cfg / 2) <= t - c <= ENCODERS_MAX cfg / 2 -> d = t - c) /\
  (ENCODERS_MAX cfg / 2 < t - c -> d = t - c - ENCODERS_MAX cfg).
Proof.
  intros Ht Hc. cbv zeta. unfold take_shortest_path.
  assert (Hsub : Int.sub t c = t - c).
  { unfold Int.sub. apply int32_id. int_in_range. }
  rewrite Hsub, half_small by int_in_range.
  rewrite int_abs_small by lia.
  pose proof (Z.div_pos (ENCODERS_MAX cfg) 2 ltac:(lia) ltac:(lia)) as Hh.
  destruct (ENCODERS_MAX cfg / 2 <? Z.abs (t - c)) eqn:Ebig.
  - apply Z.ltb_lt in Ebig.
    destruct (t - c <? 0) eqn:Eneg.
    + apply Z.ltb_lt in Eneg. unfold Int.add.
      rewrite int32_id by int_in_range. repeat split; lia.
    + apply Z.ltb_ge in Eneg. unfold Int.sub.
      rewrite int32_id by int_in_range. repeat split; lia.
  - apply Z.ltb_ge in Ebig. repeat split; lia.
Qed.

(** X8. For a target and a reading in [0, ENCODERS_MAX) and a turn
    difference that fits an [int], the prediction [point_to] computes is a
    whole number of revolutions: 360 * (turn difference + 1) when the
    rewrapped move crosses zero forward (target - reading below minus half
    a revolution), and 360 * (turn difference) in every other case, the
    move that crosses zero backward included. *)
Theorem prediction_counts_forward_crossing_only (tc init target current : Z) :
  0 <= target < ENCODERS_MAX cfg ->
  0 <= current < ENCODERS_MAX cfg ->
  Int.in_range (tc - init) ->
  (target - current < - (ENCODERS_MAX cfg / 2) ->
   (az_pred_diff_deg_since_init cfg tc init current
      (az_encoder_val_diff cfg target current)
    == (inject_Z (tc - init) + 1) * 360)%Q) /\
  (- (ENCODERS_MAX cfg / 2) <= target - current ->
   (az_pred_diff_deg_since_init cfg tc init current
      (az_encoder_val_diff cfg target current)
    == inject_Z (tc - init) * 360)%Q).
Proof.
  intros Ht Hc Htc.
  destruct (take_shortest_path_exact target current Ht Hc) as (Hlo & Hmid & Hhi).
  cbv zeta in *.
  pose proof (Z.div_pos (ENCODERS_MAX cfg) 2 ltac:(lia) ltac:(lia)) as Hh.
  assert (Esub : Int.sub tc init = tc - init)
    by (unfold Int.sub; apply int32_id; assumption).
  unfold az_pred_diff_deg_since_init, az_encoder_val_diff, real_of_int.
  rewrite !Esub.
  unfold Int.div, Int.add.
  split.
  - intros Hcase. rewrite (Hlo Hcase).
    rewrite (int32_id (current + (target - current + ENCODERS_MAX cfg)))
      by int_in_range.
    replace (current + (target - current + ENCODERS_MAX cfg))
      with (target + 1 * ENCODERS_MAX cfg) by lia.
    rewrite quot_nonneg_div by lia.
    rewrite Z.div_add by lia. rewrite Z.div_small by lia.
    change (Int.int32 (0 + 1)) with 1. reflexivity.
  - intros Hcase.
    assert (Eq : Z.quot (current
                         + take_shortest_path cfg (Int.sub target current))
                        (ENCODERS_MAX cfg) = 0).
    { destruct (Z_le_gt_dec (target - current) (ENCODERS_MAX cfg / 2))
        as [Hle | Hgt].
      - rewrite (Hmid (conj Hcase Hle)).
        replace (current + (target - current)) with target by lia.
        apply Z.quot_small. lia.
      - rewrite (Hhi ltac:(lia)).
        replace (current + (target - current - ENCODERS_MAX cfg))
          with (- (ENCODERS_MAX cfg - target)) by lia.
        rewrite Z.quot_opp_l by lia.
        rewrite Z.quot_small by lia. reflexivity. }
    assert (Ei : Int.int32 (current
                            + take_shortest_path cfg (Int.sub target current))
                 = current + take_shortest_path cfg (Int.sub target current)).
    { apply int32_id.
      destruct (Z_le_gt_dec (target - current) (ENCODERS_MAX cfg / 2))
        as [Hle | Hgt].
      - rewrite (Hmid (conj Hcase Hle)). int_in_range.
      - rewrite (Hhi ltac:(lia)). int_in_range. }
    rewrite Ei, Eq. change (Int.int32 0) with 0.
    change (inject_Z 0) with 0%Q. ring.
Qed.
End Prediction.

(** ** Directions of the unwind and of the corrective turns *)

Section Directions.
Variable cfg : Config.

(** X9. With positive AZ_MICRO_STEP_PER_TURN and AZ_REDUC whose product
    fits an [int], and a turn difference whose products fit too: the
    unwind count of [go_home] is the turn difference times the positive
    full turn of [point_to], of which the negative full turn is the
    opposite.  It is positive for a turn count above [az_init_turn_count],
    negative below, and 0 at it. *)
Theorem unwind_is_turn_difference_of_positive_turns (tc init : Z) :
  0 < AZ_MICRO_STEP_PER_TURN cfg -> 0 < AZ_REDUC cfg ->
  AZ_MICRO_STEP_PER_TURN cfg * AZ_REDUC cfg <= Int.INT_MAX ->
  Int.in_range (tc - init) ->
  Int.in_range ((tc - init) * AZ_MICRO_STEP_PER_TURN cfg) ->
  Int.in_range ((tc - init) * AZ_MICRO_STEP_PER_TURN cfg * AZ_REDUC cfg) ->
  unwind_steps cfg tc init = (tc - init) * az_full_turn_pos cfg /\
  az_full_turn_neg cfg = - az_full_turn_pos cfg /\
  0 < az_full_turn_pos cfg /\
  (init < tc -> 0 < unwind_steps cfg tc init) /\
  (tc < init -> unwind_steps cfg tc init < 0) /\
  (tc = init -> unwind_steps cfg tc init = 0).
Proof.
  intros Hm Hr Hfit H1 H2 H3.
  destruct (az_full_turn_values cfg Hm Hr Hfit) as [Eneg Epos].
  rewrite (unwind_steps_exact cfg tc init H1 H2 H3), Eneg, Epos.
  repeat split; try nia.
Qed.

Context {W : Type} `{Hardware W}.

(** X10. The two tests on the prediction are independent.  When
    AZ_MAX_ROTATION_DEG is negative and the prediction lies strictly
    between it and its opposite, [point_to] commands both corrective
    turns, the negative one first, before the main step. *)
Theorem both_corrective_turns_inside_negative_limit
    (az_deg elev_deg : Q) (s : Antenna W) (az_current tc : Z) :
  az_current = fst (az_get_encoder_pos_value (devices s)) ->
  tc = fst (az_get_turn_count (snd (az_get_encoder_pos_value (devices s)))) ->
  (AZ_MAX_ROTATION_DEG cfg
   < az_pred_diff_deg_since_init cfg tc (az_init_turn_count s) az_current
       (az_encoder_val_diff cfg
          (az_target_encoder_val cfg (az_normalized az_deg)) az_current))%Q ->
  (az_pred_diff_deg_since_init cfg tc (az_init_turn_count s) az_current
     (az_encoder_val_diff cfg
        (az_target_encoder_val cfg (az_normalized az_deg)) az_current)
   < - AZ_MAX_ROTATION_DEG cfg)%Q ->
  exists elev_current elev_steps : Z,
    history (exec (point_to cfg az_deg elev_deg) s)
    = history s
      ++ [AzPosRead az_current; AzTurnRead tc;
          AzStep (az_full_turn_neg cfg); AzStep (az_full_turn_pos cfg);
          AzStep (az_step_to_turn cfg
                    (az_encoder_val_diff cfg
                       (az_target_encoder_val cfg (az_normalized az_deg))
                       az_current));
          ElevPosRead elev_current; ElevStep elev_steps].
Proof.
  intros Ecur Etc Hhi Hlo.
  destruct (point_to_history cfg az_deg elev_deg s)
    as (cur & tc' & ecur & Ecur' & Etc' & Hhist & _).
  cbv zeta in Hhist.
  rewrite <- Ecur in Ecur'. rewrite <- Etc in Etc'. subst cur tc'.
  unfold az_corrective in Hhist.
  apply Qlt_bool_iff in Hhi, Hlo. rewrite Hhi, Hlo in Hhist.
  do 2 eexists. exact Hhist.
Qed.
End Directions.

(** ** The clamp at the edges of the configuration *)

Section ClampEdges.
Variable cfg : Config.

(** X11. With a zenith margin above 90 degrees the interval of the clamp
    is empty and every elevation request is replaced by 0. *)
Theorem clamp_is_zero_when_margin_exceeds_90 (elev_deg : Q) :
  (90 < ELEV_ZENITH_SAFETY_MARGIN_DEG cfg)%Q ->
  elev_clamp cfg elev_deg = 0%Q.
Proof.
  intros Hm. unfold elev_clamp.
  destruct (Qlt_bool (90 - ELEV_ZENITH_SAFETY_MARGIN_DEG cfg) elev_deg) eqn:E1.
  - assert (E2 : Qlt_bool (90 - ELEV_ZENITH_SAFETY_MARGIN_DEG cfg) 0 = true)
      by (apply Qlt_bool_iff; lra).
    rewrite E2. reflexivity.
  - apply Qlt_bool_false_iff in E1.
    assert (E2 : Qlt_bool elev_deg 0 = true) by (apply Qlt_bool_iff; lra).
    rewrite E2. reflexivity.
Qed.

Context {W : Type} `{Hardware W}.

(** X12. The elevations of the composite manoeuvres.  With a margin of at
    most 90 the park request 90 - margin of [go_home] passes the clamp
    unchanged.  The drain request 60 of [empty_water] passes unchanged when
    the margin is at most 30; with a margin above 30 it is replaced by
    90 - margin, and the drain call [point_to(0, 60)] does exactly what the
    park call [point_to(0, 90 - margin)] does. *)
Theorem drain_and_park_elevations :
  (ELEV_ZENITH_SAFETY_MARGIN_DEG cfg <= 90)%Q ->
  elev_clamp cfg (90 - ELEV_ZENITH_SAFETY_MARGIN_DEG cfg)
  = (90 - ELEV_ZENITH_SAFETY_MARGIN_DEG cfg)%Q /\
  ((ELEV_ZENITH_SAFETY_MARGIN_DEG cfg <= 30)%Q ->
   elev_clamp cfg 60 = 60%Q) /\
  ((30 < ELEV_ZENITH_SAFETY_MARGIN_DEG cfg)%Q ->
   elev_clamp cfg 60 = (90 - ELEV_ZENITH_SAFETY_MARGIN_DEG cfg)%Q /\
   forall s : Antenna W,
     point_to cfg 0 60 s
     = point_to cfg 0 (90 - ELEV_ZENITH_SAFETY_MARGIN_DEG cfg) s).
Proof.
  intros Hm.
  assert (Hpark : elev_clamp cfg (90 - ELEV_ZENITH_SAFETY_MARGIN_DEG cfg)
                  = (90 - ELEV_ZENITH_SAFETY_MARGIN_DEG cfg)%Q)
    by (apply elev_clamp_inside; lra).
  split; [exact Hpark|].
  split.
  - intros H30. apply elev_clamp_inside; lra.
  - intros H30.
    assert (Hdrain : elev_clamp cfg 60
                     = (90 - ELEV_ZENITH_SAFETY_MARGIN_DEG cfg)%Q)
      by (apply elev_clamp_above; lra).
    split; [exact Hdrain|].
    intros s. unfold point_to. rewrite Hdrain, Hpark. reflexivity.
Qed.
End ClampEdges.

(** ** Counting reads, steps and waits *)

Lemma count_app (p : Event -> bool) (a b : list Event) :
  count p (a ++ b) = (count p a + count p b)%nat.
Proof. unfold count. rewrite filter_app, length_app. reflexivity. Qed.

Lemma total_delay_app (a b : list Event) :
  total_delay (a ++ b) = total_delay a + total_delay b.
Proof.
  induction a as [|e a IH]; [reflexivity|].
  destruct e; cbn [app total_delay]; rewrite IH; lia.
Qed.

Lemma count_az_steps_map (l : list Z) :
  count is_az_step (map AzStep l) = length l /\
  count is_elev_step (map AzStep l) = O /\
  count is_read (map AzStep l) = O /\
  total_delay (map AzStep l) = 0.
Proof.
  induction l as [|x l (I1 & I2 & I3 & I4)]; [repeat split|].
  unfold count in *. cbn. repeat split; auto.
Qed.

Lemma az_corrective_length (cfg : Config) (pred : Q) :
  (length (az_corrective cfg pred) <= 2)%nat /\
  ((0 <= AZ_MAX_ROTATION_DEG cfg)%Q ->
   (length (az_corrective cfg pred) <= 1)%nat).
Proof.
  unfold az_corrective.
  destruct (Qlt_bool (AZ_MAX_ROTATION_DEG cfg) pred) eqn:E1;
    destruct (Qlt_bool pred (- AZ_MAX_ROTATION_DEG cfg)) eqn:E2;
    cbn; split; try lia; intros Hmax; try lia.
  apply Qlt_bool_iff in E1, E2. lra.
Qed.

Section Counts.
Context {W : Type} `{Hardware W}.
Variable cfg : Config.

Lemma point_to_counts (az_deg elev_deg : Q) (s : Antenna W) :
  let t := trace_of (point_to cfg az_deg elev_deg) s in
  count is_read t = 3%nat /\
  total_delay t = 0 /\
  count is_elev_step t = 1%nat /\
  (1 <= count is_az_step t <= 3)%nat /\
  ((0 <= AZ_MAX_ROTATION_DEG cfg)%Q -> (count is_az_step t <= 2)%nat).
Proof.
  destruct (point_to_history cfg az_deg elev_deg s)
    as (cur & tc & ecur & _ & _ & Hhist & _).
  cbv zeta in *. rewrite (trace_of_intro _ _ _ Hhist).
  match type of Hhist with context [az_corrective cfg ?p] =>
    destruct (az_corrective_length cfg p) as [L2 L1];
    destruct (count_az_steps_map (az_corrective cfg p)) as (C1 & C2 & C3 & C4);
    set (corr := az_corrective cfg p) in *
  end.
  rewrite !count_app, !total_delay_app, C1, C2, C3, C4.
  unfold count. cbn.
  repeat split; try lia. intros Hmax. specialize (L1 Hmax). lia.
Qed.

Lemma empty_water_trace (s : Antenna W) :
  trace_of (empty_water cfg) s
  = trace_of (point_to cfg 0 60) s
    ++ [Delay 3000]
    ++ trace_of (go_home cfg)
         (exec (delay 3000) (exec (point_to cfg 0 60) s)).
Proof.
  destruct (point_to_trace cfg 0 60 s) as (Hh1 & _ & _).
  set (s2 := exec (delay 3000) (exec (point_to cfg 0 60) s)).
  assert (Ee : exec (empty_water cfg) s = exec (go_home cfg) s2).
  { unfold exec at 1. rewrite empty_water_split. reflexivity. }
  destruct (go_home_trace cfg s2) as (Hg & _ & _).
  apply trace_of_intro.
  rewrite Ee, Hg. unfold s2 at 1. rewrite delay_run. cbn [history].
  rewrite Hh1. rewrite <- !app_assoc. reflexivity.
Qed.

(** X15. What the three operations command, for any drivers.  [point_to]
    reads three sensors, never waits, commands the elevation stepper once
    and the azimuth stepper between one and three times (at most twice
    when AZ_MAX_ROTATION_DEG is not negative).  [go_home] reads four
    sensors, never waits, commands the elevation stepper once and the
    azimuth stepper between two and four times.  [empty_water] reads seven
    sensors, waits 3000 ms in all, commands the elevation stepper twice and
    the azimuth stepper between three and seven times (at most five when
    AZ_MAX_ROTATION_DEG is not negative). *)
Theorem operations_command_counts (az_deg elev_deg : Q) (s : Antenna W) :
  (count is_read (trace_of (point_to cfg az_deg elev_deg) s) = 3%nat /\
   total_delay (trace_of (point_to cfg az_deg elev_deg) s) = 0 /\
   count is_elev_step (trace_of (point_to cfg az_deg elev_deg) s) = 1%nat /\
   (1 <= count is_az_step (trace_of (point_to cfg az_deg elev_deg) s) <= 3)%nat /\
   ((0 <= AZ_MAX_ROTATION_DEG cfg)%Q ->
    (count is_az_step (trace_of (point_to cfg az_deg elev_deg) s) <= 2)%nat)) /\
  (count is_read (trace_of (go_home cfg) s) = 4%nat /\
   total_delay (trace_of (go_home cfg) s) = 0 /\
   count is_elev_step (trace_of (go_home cfg) s) = 1%nat /\
   (2 <= count is_az_step (trace_of (go_home cfg) s) <= 4)%nat) /\
  (count is_read (trace_of (empty_water cfg) s) = 7%nat /\
   total_delay (trace_of (empty_water cfg) s) = 3000 /\
   count is_elev_step (trace_of (empty_water cfg) s) = 2%nat /\
   (3 <= count is_az_step (trace_of (empty_water cfg) s) <= 7)%nat /\
   ((0 <= AZ_MAX_ROTATION_DEG cfg)%Q ->
    (count is_az_step (trace_of (empty_water cfg) s) <= 5)%nat)).
Proof.
  assert (Hgo : forall s0 : Antenna W,
             count is_read (trace_of (go_home cfg) s0) = 4%nat /\
             total_delay (trace_of (go_home cfg) s0) = 0 /\
             count is_elev_step (trace_of (go_home cfg) s0) = 1%nat /\
             (2 <= count is_az_step (trace_of (go_home cfg) s0) <= 4)%nat /\
             ((0 <= AZ_MAX_ROTATION_DEG cfg)%Q ->
              (count is_az_step (trace_of (go_home cfg) s0) <= 3)%nat)).
  { intros s0. destruct (go_home_trace cfg s0) as (_ & Ht & _).
    rewrite Ht.
    destruct (point_to_counts 0 (90 - ELEV_ZENITH_SAFETY_MARGIN_DEG cfg)
                (exec (untangle cfg) s0)) as (P1 & P2 & P3 & P4 & P5).
    cbv zeta in *.
    rewrite !count_app, !total_delay_app, P1, P2, P3.
    match goal with |- context [count is_read ?l] =>
      change (count is_read l) with 1%nat;
      change (total_delay l) with 0;
      change (count is_elev_step l) with 0%nat;
      change (count is_az_step l) with 1%nat
    end.
    repeat split; try lia.
    intros Hmax. specialize (P5 Hmax). lia. }
  split; [apply point_to_counts|].
  split.
  { destruct (Hgo s) as (G1 & G2 & G3 & G4 & _). repeat split; lia. }
  rewrite empty_water_trace.
  destruct (point_to_counts 0 60 s) as (P1 & P2 & P3 & P4 & P5).
  destruct (Hgo (exec (delay 3000) (exec (point_to cfg 0 60) s)))
    as (G1 & G2 & G3 & G4 & G5).
  cbv zeta in *.
  rewrite !count_app, !total_delay_app, P1, P2, P3, G1, G2, G3.
  change (count is_read [Delay 3000]) with 0%nat.
  change (total_delay [Delay 3000]) with 3000.
  change (count is_elev_step [Delay 3000]) with 0%nat.
  change (count is_az_step [Delay 3000]) with 0%nat.
  repeat split; try lia.
  intros Hmax. specialize (P5 Hmax). specialize (G5 Hmax). lia.
Qed.

(** The warm-up loop: per iteration two reads and two waits of 50 ms. *)
Lemma warm_up_profile (n : nat) :
  forall s : Antenna W,
  exists pre : list Event,
    history (exec (warm_up n) s) = history s ++ pre /\
    total_delay pre = 100 * Z.of_nat n /\
    count is_read pre = (2 * n)%nat /\
    count is_step pre = O.
Proof.
  induction n as [|n IH]; intros s.
  - exists []. cbn. rewrite app_nil_r. repeat split; reflexivity.
  - cbn [warm_up]. unfold_members.
    destruct (az_get_encoder_pos_value (devices s)) as [a w1].
    cbn [az_init_turn_count devices history].
    destruct (elev_get_encoder_pos_value (hw_delay 50 w1)) as [e w2].
    cbn [az_init_turn_count devices history].
    match goal with |- context [warm_up n ?s'] =>
      destruct (IH s') as (pre & Hh & Hd & Hr & Hs) end.
    unfold exec in Hh.
    exists ([AzPosRead a; Delay 50; ElevPosRead e; Delay 50] ++ pre).
    rewrite Hh. cbn [az_init_turn_count devices history].
    rewrite <- !app_assoc. cbn [app].
    split; [reflexivity|].
    unfold count in *. cbn [total_delay filter is_read is_step length].
    rewrite Hd, Hr, Hs. repeat split; lia.
Qed.

(** What the warm-up loop leaves does not depend on the content of
    [az_init_turn_count]. *)
Lemma warm_up_ignores_member (n : nat) :
  forall (g g' : Z) (w : W) (h : list Event),
    devices (exec (warm_up n) (mkAntenna g w h))
    = devices (exec (warm_up n) (mkAntenna g' w h)) /\
    history (exec (warm_up n) (mkAntenna g w h))
    = history (exec (warm_up n) (mkAntenna g' w h)).
Proof.
  induction n as [|n IH]; intros g g' w h.
  - split; reflexivity.
  - cbn [warm_up]. unfold_members.
    cbn [az_init_turn_count devices history].
    destruct (az_get_encoder_pos_value w) as [a w1].
    cbn [az_init_turn_count devices history].
    destruct (elev_get_encoder_pos_value (hw_delay 50 w1)) as [e w2].
    cbn [az_init_turn_count devices history].
    apply IH.
Qed.

Lemma ctor_tail_run (s1 : Antenna W) :
  exec (v <- az_encoder_turn ;; set_init v) s1
  = mkAntenna (fst (az_get_turn_count (devices s1)))
      (snd (az_get_turn_count (devices s1)))
      (history s1
       ++ [AzTurnRead (fst (az_get_turn_count (devices s1)));
           SetInitTurnCount (fst (az_get_turn_count (devices s1)))]).
Proof.
  unfold exec, bind, az_encoder_turn, read_with, set_init.
  destruct (az_get_turn_count (devices s1)) as [v w1].
  cbn [snd fst az_init_turn_count devices history].
  rewrite <- app_assoc. reflexivity.
Qed.

Lemma new_Antenna_split (w : W) (garbage : Z) :
  new_Antenna w garbage
  = exec (v <- az_encoder_turn ;; set_init v)
      (exec (warm_up 10) (mkAntenna garbage w [])).
Proof.
  unfold new_Antenna, exec, Antenna_ctor, bind.
  destruct (warm_up 10 (mkAntenna garbage w [])) as [[] s1]. reflexivity.
Qed.

(** X14. The object the constructor builds does not depend on what the
    member [az_init_turn_count] held before its assignment.  Construction
    waits 1000 ms in all, reads the sensors 21 times and commands no
    stepper. *)
Theorem constructor_profile (w : W) (garbage garbage' : Z) :
  new_Antenna w garbage = new_Antenna w garbage' /\
  total_delay (history (new_Antenna w garbage)) = 1000 /\
  count is_read (history (new_Antenna w garbage)) = 21%nat /\
  count is_step (history (new_Antenna w garbage)) = O.
Proof.
  rewrite !new_Antenna_split, !ctor_tail_run.
  destruct (warm_up_ignores_member 10 garbage garbage' w []) as [Ed Eh].
  split; [rewrite Ed, Eh; reflexivity|].
  destruct (warm_up_profile 10 (mkAntenna garbage w []))
    as (pre & Hh & Hd & Hr & Hs).
  cbn [history app] in *. rewrite Hh.
  rewrite !count_app, total_delay_app, Hd, Hr, Hs.
  unfold count. cbn. repeat split; lia.
Qed.
End Counts.

(** ** The further properties at the bench *)

Ltac bench_side :=
  cbn; unfold Int.in_range, Int.INT_MIN, Int.INT_MAX; try lia; try lra.

(** The end-to-end shortest path at [point_to(350, 45)] on the rig. *)
Lemma point_to_moves_by_shortest_path_witness :
  exists (az_current tc elev_current az_diff elev_diff : Z)
         (corrective : list Z),
    let az_target := az_target_encoder_val cfg4096 (az_normalized 350) in
    let elev_target :=
      elev_target_encoder_val cfg4096 (elev_clamp cfg4096 45) in
    history (exec (point_to cfg4096 350 45) bench_at_start)
    = history bench_at_start
      ++ [AzPosRead az_current; AzTurnRead tc]
      ++ map AzStep corrective
      ++ [AzStep (az_step_to_turn cfg4096 az_diff);
          ElevPosRead elev_current;
          ElevStep (Int.neg (elev_step_to_turn cfg4096 elev_diff))] /\
    0 <= az_target < ENCODERS_MAX cfg4096 /\
    0 <= elev_target < ENCODERS_MAX cfg4096 /\
    (0 <= az_current < ENCODERS_MAX cfg4096 ->
     Z.abs az_diff <= ENCODERS_MAX cfg4096 / 2 /\
     (az_current + az_diff) mod ENCODERS_MAX cfg4096 = az_target) /\
    (0 <= elev_current < ENCODERS_MAX cfg4096 ->
     Z.abs elev_diff <= ENCODERS_MAX cfg4096 / 2 /\
     (elev_current + elev_diff) mod ENCODERS_MAX cfg4096 = elev_target).
Proof.
  apply (point_to_moves_by_shortest_path cfg4096); bench_side.
Defined.

(** Minimality at target 3982, reading 0, against one revolution more. *)
Lemma rewrapped_diff_is_minimal_witness :
  Z.abs (take_shortest_path cfg4096 (Int.sub 3982 0))
  <= Z.abs (3982 - 0 + 1 * ENCODERS_MAX cfg4096).
Proof.
  apply (rewrapped_diff_is_minimal cfg4096); bench_side.
Defined.

(** A raw difference of two revolutions is not brought within half a
    revolution. *)
Lemma rewrap_is_applied_once_witness :
  Z.abs (take_shortest_path cfg4096 8192) <= ENCODERS_MAX cfg4096 / 2
  <-> Z.abs 8192 <= ENCODERS_MAX cfg4096 / 2 + ENCODERS_MAX cfg4096.
Proof.
  apply (rewrap_is_applied_once cfg4096); bench_side.
Defined.

(** The bounds for a difference of exactly half a revolution. *)
Lemma main_steps_within_half_turn_witness :
  (2 * Z.abs (az_step_to_turn cfg4096 2048)
     <= AZ_REDUC cfg4096 * AZ_MICRO_STEP_PER_TURN cfg4096 /\
   (0 <= 2048 -> 0 <= az_step_to_turn cfg4096 2048) /\
   (2048 <= 0 -> az_step_to_turn cfg4096 2048 <= 0)) /\
  (Int.neg (elev_step_to_turn cfg4096 2048) = - elev_step_to_turn cfg4096 2048 /\
   2 * Z.abs (Int.neg (elev_step_to_turn cfg4096 2048))
     <= ELEV_REDUC cfg4096 * ELEV_MICRO_STEP_PER_TURN cfg4096 /\
   (0 <= 2048 -> Int.neg (elev_step_to_turn cfg4096 2048) <= 0) /\
   (2048 <= 0 -> 0 <= Int.neg (elev_step_to_turn cfg4096 2048))).
Proof.
  apply (main_steps_within_half_turn cfg4096); bench_side.
Defined.

(** [point_to(0, 0)] on a rig whose encoders read the two targets. *)
Lemma on_target_zero_steps_witness :
  exists (az_current tc elev_current main elev_steps : Z)
         (corrective : list Z),
    history (exec (point_to cfg4096 0 0) bench_at_start)
    = history bench_at_start
      ++ [AzPosRead az_current; AzTurnRead tc]
      ++ map AzStep corrective
      ++ [AzStep main; ElevPosRead elev_current; ElevStep elev_steps] /\
    (az_current = az_target_encoder_val cfg4096 (az_normalized 0) ->
     main = 0) /\
    (elev_current = elev_target_encoder_val cfg4096 (elev_clamp cfg4096 0) ->
     elev_steps = 0).
Proof.
  apply (on_target_zero_steps cfg4096); bench_side.
Defined.

(** The prediction for target 10 from reading 4000 (forward through zero)
    two turns past start-up. *)
Lemma prediction_counts_forward_crossing_only_witness :
  (10 - 4000 < - (ENCODERS_MAX cfg4096 / 2) ->
   (az_pred_diff_deg_since_init cfg4096 100 98 4000
      (az_encoder_val_diff cfg4096 10 4000)
    == (inject_Z (100 - 98) + 1) * 360)%Q) /\
  (- (ENCODERS_MAX cfg4096 / 2) <= 10 - 4000 ->
   (az_pred_diff_deg_since_init cfg4096 100 98 4000
      (az_encoder_val_diff cfg4096 10 4000)
    == inject_Z (100 - 98) * 360)%Q).
Proof.
  apply (prediction_counts_forward_crossing_only cfg4096); bench_side.
Defined.

(** The unwind two turns past start-up. *)
Lemma unwind_is_turn_difference_of_positive_turns_witness :
  unwind_steps cfg4096 100 98 = (100 - 98) * az_full_turn_pos cfg4096 /\
  az_full_turn_neg cfg4096 = - az_full_turn_pos cfg4096 /\
  0 < az_full_turn_pos cfg4096 /\
  (98 < 100 -> 0 < unwind_steps cfg4096 100 98) /\
  (100 < 98 -> unwind_steps cfg4096 100 98 < 0) /\
  (100 = 98 -> unwind_steps cfg4096 100 98 = 0).
Proof.
  apply (unwind_is_turn_difference_of_positive_turns cfg4096); bench_side.
Defined.

(** A limit of -1 degree with a prediction of 0. *)
Lemma both_corrective_turns_inside_negative_limit_witness :
  exists elev_current elev_steps : Z,
    history (exec (point_to cfg_negative_limit 10 45) bench_at_start)
    = history bench_at_start
      ++ [AzPosRead 0; AzTurnRead 100;
          AzStep (az_full_turn_neg cfg_negative_limit);
          AzStep (az_full_turn_pos cfg_negative_limit);
          AzStep (az_step_to_turn cfg_negative_limit
                    (az_encoder_val_diff cfg_negative_limit
                       (az_target_encoder_val cfg_negative_limit
                          (az_normalized 10))
                       0));
          ElevPosRead elev_current; ElevStep elev_steps].
Proof.
  apply (both_corrective_turns_inside_negative_limit
           cfg_negative_limit 10 45 bench_at_start 0 100).
  - reflexivity.
  - reflexivity.
  - vm_compute. reflexivity.
  - vm_compute. reflexivity.
Defined.

(** A margin of 100 degrees and a request of 45. *)
Lemma clamp_is_zero_when_margin_exceeds_90_witness :
  elev_clamp cfg_wide_margin 45 = 0%Q.
Proof.
  apply (clamp_is_zero_when_margin_exceeds_90 cfg_wide_margin). bench_side.
Defined.

(** The manoeuvres' elevations with a margin of 5 degrees. *)
Lemma drain_and_park_elevations_witness :
  elev_clamp cfg4096 (90 - ELEV_ZENITH_SAFETY_MARGIN_DEG cfg4096)
  = (90 - ELEV_ZENITH_SAFETY_MARGIN_DEG cfg4096)%Q /\
  ((ELEV_ZENITH_SAFETY_MARGIN_DEG cfg4096 <= 30)%Q ->
   elev_clamp cfg4096 60 = 60%Q) /\
  ((30 < ELEV_ZENITH_SAFETY_MARGIN_DEG cfg4096)%Q ->
   elev_clamp cfg4096 60 = (90 - ELEV_ZENITH_SAFETY_MARGIN_DEG cfg4096)%Q /\
   forall s : Antenna Bench,
     point_to cfg4096 0 60 s
     = point_to cfg4096 0 (90 - ELEV_ZENITH_SAFETY_MARGIN_DEG cfg4096) s).
Proof.
  apply (drain_and_park_elevations cfg4096). bench_side.
Defined.

(** The reference targets of the rig. *)
Lemma reference_angles_reach_reference_values_witness :
  (forall (az_deg : Q) (k : Z),
      (az_deg == 360 * inject_Z k)%Q -> - 2 ^ 15 <= k <= 0 ->
      az_target_encoder_val cfg4096 (az_normalized az_deg)
      = AZ_NORTH_ENCODER_VAL cfg4096) /\
  (forall elev_deg : Q,
      (elev_deg <= 0)%Q ->
      elev_target_encoder_val cfg4096 (elev_clamp cfg4096 elev_deg)
      = ELEV_HORIZON_ENCODER_OFFSET_VAL cfg4096) /\
  (forall elev_deg : Q,
      (ELEV_ZENITH_SAFETY_MARGIN_DEG cfg4096 == 0)%Q ->
      ENCODERS_MAX cfg4096 mod 4 = 0 ->
      (90 <= elev_deg)%Q ->
      elev_target_encoder_val cfg4096 (elev_clamp cfg4096 elev_deg)
      = ELEV_ZENITH_ENCODER_VAL cfg4096).
Proof.
  apply (reference_angles_reach_reference_values cfg4096); bench_side.
Defined.

(** * Revised statements *)

(** C1, at [point_to(180, 0)] with ENCODERS_MAX = 4096, north at 0, the
    azimuth encoder at 1024 and the turn count one above its start-up
    value.  The predicted rotation of the specification is 540 degrees,
    above the limit of 380, and [point_to] commands the main azimuth step
    only: the corrective turn of one full negative revolution is missing,
    because the code's prediction has lost the half revolution. *)
Theorem cable_wrap_misses_fractional_excess :
  (AZ_MAX_ROTATION_DEG cfg4096
   < spec_predicted cfg4096 100 (az_init_turn_count bench_quarter) 1024
       (az_encoder_val_diff cfg4096
          (az_target_encoder_val cfg4096 (az_normalized 180)) 1024))%Q /\
  history (exec (point_to cfg4096 180 0) bench_quarter)
  = [AzPosRead 1024; AzTurnRead 100; AzStep 112000;
     ElevPosRead 0; ElevStep 0] /\
  count is_az_step (history (exec (point_to cfg4096 180 0) bench_quarter))
  = 1%nat.
Proof. repeat split; vm_compute; reflexivity. Qed.


(** ** The elevation target and the inverted step *)

Section ElevationInverted.
Variable cfg : Config.
Hypothesis EMAX_pow2 :
  exists n : Z, 0 <= n <= 20 /\ ENCODERS_MAX cfg = 2 ^ n.
Hypothesis ZENITH_range :
  0 <= ELEV_ZENITH_ENCODER_VAL cfg < ENCODERS_MAX cfg.
Hypothesis MARGIN_range :
  (0 <= ELEV_ZENITH_SAFETY_MARGIN_DEG cfg)%Q /\
  (ELEV_ZENITH_SAFETY_MARGIN_DEG cfg <= 90)%Q.
Hypothesis ELEV_gear :
  0 < ELEV_REDUC cfg /\ 0 < ELEV_MICRO_STEP_PER_TURN cfg /\
  2 * ENCODERS_MAX cfg <= ELEV_REDUC cfg * ELEV_MICRO_STEP_PER_TURN cfg /\
  ELEV_REDUC cfg * ELEV_MICRO_STEP_PER_TURN cfg <= 2 ^ 30.



Context {W : Type} `{Hardware W}.

End ElevationInverted.

